(** * package_updater.py: a shallow embedding and its verified properties

    The program drives [apt] and [flatpak] through child processes, parses
    their textual output and sequences check and apply phases.  The
    embedding has three layers:

    - [Py]: the operations of Python's [str] that the program uses, over
      strings as lists of Unicode code points;
    - [Re]: a backtracking matcher for the fragment of Python's [re] that the
      upgrade-listing pattern is written in;
    - [Updater]: the class [PackageUpdater] and [main], in a state monad
      whose state holds the object's fields, the log of the commands handed
      to [subprocess.run] and the lines printed so far.  The outside world is
      a parameter: a function from the commands run so far and the command
      at hand to the outcome of [subprocess.run]. *)

From Stdlib Require Import List Bool Arith NArith ZArith Lia String Ascii DecimalString.
Import ListNotations.

Set Implicit Arguments.
Set Default Goal Selector "!".

(** ** Python strings *)

Module Py.

(** A [str] is a sequence of code points. *)
Definition char := N.
Definition str := list char.

(** Program literals: all but one are ASCII. *)
Definition lit (s : string) : str := map N_of_ascii (list_ascii_of_string s).

Definition NL : char := 10%N.
Definition TAB : char := 9%N.
Definition SP : char := 32%N.
Definition SLASH : char := 47%N.

(** [Py_UNICODE_ISSPACE]: the code points [str.strip], [str.split] with no
    separator and the regular-expression class [\s] treat as white space. *)
Definition isspace (c : char) : bool :=
  ((9 <=? c) && (c <=? 13) || (28 <=? c) && (c <=? 32)
   || (c =? 133) || (c =? 160) || (c =? 5760)
   || (8192 <=? c) && (c <=? 8202)
   || (c =? 8232) || (c =? 8233) || (c =? 8239) || (c =? 8287)
   || (c =? 12288))%N.

Fixpoint eqb (a b : str) : bool :=
  match a, b with
  | [], [] => true
  | x :: a', y :: b' => N.eqb x y && eqb a' b'
  | _, _ => false
  end.

(** Truth value of a string or of a list: non-empty. *)
Definition truthy {A} (l : list A) : bool :=
  match l with [] => false | _ :: _ => true end.

(** [s.startswith(p)] *)
Fixpoint startswith (p s : str) : bool :=
  match p, s with
  | [], _ => true
  | x :: p', y :: s' => N.eqb x y && startswith p' s'
  | _ :: _, [] => false
  end.

(** [p in s] for strings: [p] occurs as a substring. *)
Fixpoint contains (p s : str) : bool :=
  startswith p s || match s with [] => false | _ :: s' => contains p s' end.

(** [x in l] for a list of strings. *)
Definition mem (x : str) (l : list str) : bool := existsb (eqb x) l.

Fixpoint lstrip (s : str) : str :=
  match s with
  | c :: s' => if isspace c then lstrip s' else s
  | [] => []
  end.

(** [s.rstrip()]: a character stays when something after it stays or it is
    not white space. *)
Fixpoint rstrip (s : str) : str :=
  match s with
  | [] => []
  | c :: s' =>
      match rstrip s' with
      | [] => if isspace c then [] else [c]
      | r => c :: r
      end
  end.

(** [s.strip()] *)
Definition strip (s : str) : str := lstrip (rstrip s).

(** [s.split(sep)] for a one-character separator: never the empty list. *)
Fixpoint split (sep : char) (s : str) : list str :=
  match s with
  | [] => [[]]
  | c :: s' =>
      if N.eqb c sep then [] :: split sep s'
      else match split sep s' with
           | w :: ws => (c :: w) :: ws
           | [] => [[c]]
           end
  end.

(** [s.split()]: the maximal runs of non-space characters. *)
Fixpoint split_ws_aux (cur : str) (s : str) : list str :=
  match s with
  | [] => match cur with [] => [] | _ => [rev cur] end
  | c :: s' =>
      if isspace c
      then match cur with [] => split_ws_aux [] s' | _ => rev cur :: split_ws_aux [] s' end
      else split_ws_aux (c :: cur) s'
  end.

Definition split_ws (s : str) : list str := split_ws_aux [] s.

(** [sep.join(l)] *)
Fixpoint join (sep : str) (l : list str) : str :=
  match l with
  | [] => []
  | [x] => x
  | x :: l' => x ++ sep ++ join sep l'
  end.

(** [c * n] *)
Definition repeat_char (c : char) (n : nat) : str := repeat c n.

(** [str(n)] for a length: decimal digits. *)
Definition str_of_nat (n : nat) : str :=
  lit (NilEmpty.string_of_uint (Nat.to_uint n)).

End Py.

(** ** The fragment of [re] used by the program *)

Module Re.
Import Py.

(** Every repetition in the program's pattern is over a one-character class,
    so repetitions take a class rather than a sub-expression. *)
Inductive regex : Type :=
| Bol                          (* ^ *)
| Eol                          (* $ *)
| One (p : char -> bool)       (* a literal character or a class *)
| Star (p : char -> bool)      (* class*, greedy *)
| Plus (p : char -> bool)      (* class+, greedy *)
| Cat (r1 r2 : regex)
| Group (r : regex)            (* capturing ( ) *)
| NoCap (r : regex).           (* (?: ) *)

Definition not_slash (c : char) : bool := negb (N.eqb c SLASH).   (* [^/] *)
Definition slash (c : char) : bool := N.eqb c SLASH.              (* /    *)
Definition space (c : char) : bool := isspace c.                  (* \s   *)
Definition nonspace (c : char) : bool := negb (isspace c).        (* \S   *)
Definition dot (c : char) : bool := negb (N.eqb c NL).            (* .    *)

(** [$] without MULTILINE: at the end, or before a final newline. *)
Definition at_eol (s : str) : bool :=
  match s with
  | [] => true
  | [c] => N.eqb c NL
  | _ => false
  end.

Section Matcher.
Variable R : Type.

(** Greedy repetition with backtracking: take as many characters of the
    class as there are, then give them back one at a time until the rest
    of the pattern, the continuation [k], succeeds. *)
Fixpoint greedy (p : char -> bool) (s : str) (k : str -> option R) : option R :=
  match s with
  | c :: s' =>
      if p c
      then match greedy p s' k with
           | Some r => Some r
           | None => k s
           end
      else k s
  | [] => k []
  end.

(** [exec input r s gs k]: match [r] at the suffix [s] of [input], with the
    groups closed so far in [gs] (in the order of their numbers: the
    pattern nests no group). *)
Fixpoint exec (input : str) (r : regex) (s : str) (gs : list str)
         (k : str -> list str -> option R) : option R :=
  match r with
  | Bol => if Nat.eqb (List.length s) (List.length input) then k s gs else None
  | Eol => if at_eol s then k s gs else None
  | One p =>
      match s with
      | c :: s' => if p c then k s' gs else None
      | [] => None
      end
  | Star p => greedy p s (fun s' => k s' gs)
  | Plus p =>
      match s with
      | c :: s' => if p c then greedy p s' (fun s'' => k s'' gs) else None
      | [] => None
      end
  | Cat r1 r2 => exec input r1 s gs (fun s' gs' => exec input r2 s' gs' k)
  | Group r1 =>
      exec input r1 s gs
           (fun s' gs' => k s' (gs' ++ [firstn (List.length s - List.length s') s]))
  | NoCap r1 => exec input r1 s gs k
  end.
End Matcher.

(** [re.match(r, s)]: a match anchored at the start; the result is the list
    of the groups, [group(1)] first. *)
Definition re_match (r : regex) (s : str) : option (list str) :=
  exec s r s [] (fun _ gs => Some gs).

Fixpoint cats (rs : list regex) : regex :=
  match rs with
  | [] => Star (fun _ => false)
  | [r] => r
  | r :: rs' => Cat r (cats rs')
  end.

(** [group(i)] of a match. *)
Definition group (m : list str) (i : nat) : str := nth (i - 1) m [].

End Re.

(** ** The program *)

Module Updater.
Import Py.

(** The dictionaries built by the two listing parsers. *)
Record UpgradeCandidate : Type :=
  { name : str; current : str; available : str }.

Record FlatpakUpdate : Type :=
  { fp_name : str; fp_arch : str; fp_branch : str }.

(** What [subprocess.run(command, capture_output=True, text=True,
    check=False)] does: it returns a completed process, or raises. *)
Inductive Outcome : Type :=
| Completed (returncode : Z) (stdout stderr : str)
| Raised (message : str).

Definition command := list str.

(** The outside world, which may answer by what was run before. *)
Definition World := list command -> command -> Outcome.

(** The fields of a [PackageUpdater]. *)
Record PackageUpdater : Type :=
  { dry_run : bool;
    verbose : bool;
    updatable_packages : list UpgradeCandidate;
    removable_packages : list str }.

(** [__init__] *)
Definition init (dry_run verbose : bool) : PackageUpdater :=
  {| dry_run := dry_run; verbose := verbose;
     updatable_packages := []; removable_packages := [] |}.

(** The state threaded through the methods: the object, the commands handed
    to [subprocess.run] so far (oldest first) and the lines printed so far. *)
Record State : Type :=
  { self : PackageUpdater;
    calls : list command;
    printed : list str }.

Definition M (A : Type) : Type := State -> A * State.

Definition ret {A} (a : A) : M A := fun st => (a, st).

Definition bind {A B} (m : M A) (k : A -> M B) : M B :=
  fun st => let (a, st') := m st in k a st'.

Notation "x <- m ;; k" := (bind m (fun x => k))
  (at level 61, m at next level, right associativity).
Notation "' pat <- m ;; k" := (bind m (fun x => match x with pat => k end))
  (at level 61, pat pattern, m at next level, right associativity).
Notation "m ;; k" := (bind m (fun _ => k))
  (at level 61, right associativity).

Definition get_self : M PackageUpdater := fun st => (self st, st).

Definition print (line : str) : M unit :=
  fun st => (tt, {| self := self st; calls := calls st;
                    printed := printed st ++ [line] |}).

Definition set_updatable_packages (l : list UpgradeCandidate) : M unit :=
  fun st => (tt, {| self := {| dry_run := dry_run (self st);
                               verbose := verbose (self st);
                               updatable_packages := l;
                               removable_packages := removable_packages (self st) |};
                    calls := calls st; printed := printed st |}).

Definition set_removable_packages (l : list str) : M unit :=
  fun st => (tt, {| self := {| dry_run := dry_run (self st);
                               verbose := verbose (self st);
                               updatable_packages := updatable_packages (self st);
                               removable_packages := l |};
                    calls := calls st; printed := printed st |}).

Definition when (b : bool) (m : M unit) : M unit := if b then m else ret tt.

Fixpoint for_each {A} (l : list A) (body : A -> M unit) : M unit :=
  match l with
  | [] => ret tt
  | x :: l' => body x ;; for_each l' body
  end.

(** *** The parsers (the pure part of the check phases) *)

(** [r'^([^/]+)/(?:\S+)\s+(\S+)\s+(\S+).*$'] *)
Definition APT_LINE : Re.regex :=
  Re.cats [Re.Bol; Re.Group (Re.Plus Re.not_slash); Re.One Re.slash;
           Re.NoCap (Re.Plus Re.nonspace); Re.Plus Re.space;
           Re.Group (Re.Plus Re.nonspace); Re.Plus Re.space;
           Re.Group (Re.Plus Re.nonspace); Re.Star Re.dot; Re.Eol].

(** The body of the loop of [check_apt_updates]. *)
Definition upgradable_step (packages : list UpgradeCandidate) (line : str)
  : list UpgradeCandidate :=
  if truthy line && contains (lit "/") line
     && negb (startswith (lit "Listing...") line)
  then match Re.re_match APT_LINE line with
       | Some m => packages ++ [{| name := Re.group m 1;
                                   current := Re.group m 2;
                                   available := Re.group m 3 |}]
       | None => packages
       end
  else packages.

Definition upgradable_of_lines (lines : list str) : list UpgradeCandidate :=
  fold_left upgradable_step lines [].

Definition parse_upgradable (output : str) : list UpgradeCandidate :=
  upgradable_of_lines (split NL (strip output)).

(** The body of the loop of [check_flatpak_updates]. *)
Definition flatpak_step (updates : list FlatpakUpdate) (line : str)
  : list FlatpakUpdate :=
  if truthy line
  then match split TAB line with
       | p0 :: p1 :: p2 :: _ =>
           updates ++ [{| fp_name := p0; fp_arch := p1; fp_branch := p2 |}]
       | _ => updates
       end
  else updates.

Definition parse_flatpak (output : str) : list FlatpakUpdate :=
  fold_left flatpak_step (split NL (strip output)) [].

Definition REMOVED_HEADER : str := lit "The following packages will be REMOVED:".

(** The loop of [check_autoremove], with its [continue] and [break].
    [line.strip().split()[0]] is taken where [line.strip()] is non-empty, so
    the list has a first element ([first_token_defined] below); the [None]
    branch stands for the [IndexError] that cannot happen. *)
Fixpoint removable_loop (lines : list str) (in_package_list : bool)
         (packages : list str) : list str :=
  match lines with
  | [] => packages
  | line :: rest =>
      if contains REMOVED_HEADER line
      then removable_loop rest true packages
      else if in_package_list && truthy (strip line)
                && negb (startswith (repeat_char SP 3) line)
      then packages
      else if in_package_list && truthy (strip line)
      then match hd_error (split_ws (strip line)) with
           | Some package_name =>
               if truthy package_name && negb (mem package_name packages)
               then removable_loop rest in_package_list (packages ++ [package_name])
               else removable_loop rest in_package_list packages
           | None => packages
           end
      else removable_loop rest in_package_list packages
  end.

Definition parse_removable (output : str) : list str :=
  removable_loop (split NL (strip output)) false [].

(** *** The methods *)

Section Methods.
Variable world : World.

Definition subprocess_run (cmd : command) : M Outcome :=
  fun st => (world (calls st) cmd,
             {| self := self st; calls := calls st ++ [cmd];
                printed := printed st |}).

Definition run_command (cmd : command) : M (bool * str) :=
  me <- get_self ;;
  when (verbose me) (print (lit "Running: " ++ join (lit " ") cmd)) ;;
  result <- subprocess_run cmd ;;
  match result with
  | Completed returncode stdout stderr =>
      when (negb (Z.eqb returncode 0) && verbose me)
           (print (lit "Command failed: " ++ stderr)) ;;
      ret (Z.eqb returncode 0, stdout)
  | Raised e =>
      when (verbose me) (print (lit "Error running command: " ++ e)) ;;
      ret (false, e)
  end.

Definition CMD_REFRESH : command := [lit "sudo"; lit "apt"; lit "update"].
Definition CMD_LIST : command := [lit "apt"; lit "list"; lit "--upgradable"].
Definition CMD_WHICH_FLATPAK : command := [lit "which"; lit "flatpak"].
Definition CMD_FLATPAK_LIST : command :=
  [lit "flatpak"; lit "remote-ls"; lit "--updates"].
Definition CMD_SIMULATE_REMOVE : command :=
  [lit "apt"; lit "autoremove"; lit "--dry-run"].
Definition CMD_UPGRADE : command := [lit "sudo"; lit "apt"; lit "upgrade"; lit "-y"].
Definition CMD_FLATPAK_UPDATE : command := [lit "flatpak"; lit "update"; lit "-y"].
Definition CMD_REMOVE : command := [lit "sudo"; lit "apt"; lit "autoremove"; lit "-y"].
Definition CMD_AUTOCLEAN : command := [lit "sudo"; lit "apt"; lit "autoclean"].

Definition ARROW : str := [SP; 8594%N; SP].

Definition check_apt_updates : M bool :=
  print (lit "Checking for APT package updates...") ;;
  ' (success, _) <- run_command CMD_REFRESH ;;
  if negb success
  then print (lit "Failed to update package lists") ;; ret false
  else
    ' (success, output) <- run_command CMD_LIST ;;
    if negb success
    then print (lit "Failed to check upgradable packages") ;; ret false
    else
      let packages := parse_upgradable output in
      set_updatable_packages packages ;;
      (if truthy packages
       then
         print (lit "Found " ++ str_of_nat (List.length packages)
                    ++ lit " packages that can be updated:") ;;
         for_each packages (fun pkg =>
           print (lit "   " ++ name pkg ++ lit ": " ++ current pkg
                      ++ ARROW ++ available pkg))
       else print (lit "All APT packages are up to date")) ;;
      ret true.

Definition check_flatpak_updates : M bool :=
  print (lit "Checking for Flatpak updates...") ;;
  ' (success, _) <- run_command CMD_WHICH_FLATPAK ;;
  if negb success
  then print (lit "Flatpak not installed, skipping") ;; ret true
  else
    ' (success, output) <- run_command CMD_FLATPAK_LIST ;;
    if negb success
    then print (lit "Failed to check Flatpak updates") ;; ret false
    else
      let flatpak_updates := parse_flatpak output in
      (if truthy flatpak_updates
       then
         print (lit "Found " ++ str_of_nat (List.length flatpak_updates)
                    ++ lit " Flatpak packages that can be updated:") ;;
         for_each flatpak_updates (fun pkg =>
           print (lit "   " ++ fp_name pkg ++ lit " (" ++ fp_arch pkg ++ lit ")"))
       else print (lit "All Flatpak packages are up to date")) ;;
      ret true.

Definition check_autoremove : M bool :=
  print (lit "Checking for orphaned packages...") ;;
  ' (success, output) <- run_command CMD_SIMULATE_REMOVE ;;
  if negb success
  then print (lit "Failed to check autoremove candidates") ;; ret false
  else
    let packages := parse_removable output in
    set_removable_packages packages ;;
    (if truthy packages
     then
       print (lit "Found " ++ str_of_nat (List.length packages)
                  ++ lit " packages that can be removed:") ;;
       for_each packages (fun pkg => print (lit "   " ++ pkg))
     else print (lit "No orphaned packages found")) ;;
    ret true.

Definition update_apt_packages : M bool :=
  me <- get_self ;;
  if negb (truthy (updatable_packages me))
  then print (lit "No APT packages to update") ;; ret true
  else
    print (lit "Updating " ++ str_of_nat (List.length (updatable_packages me))
               ++ lit " APT packages...") ;;
    if dry_run me
    then print (lit "Dry run - would run: sudo apt upgrade -y") ;; ret true
    else
      ' (success, _) <- run_command CMD_UPGRADE ;;
      if success
      then print (lit "APT packages updated successfully") ;; ret true
      else print (lit "Failed to update APT packages") ;; ret false.

Definition update_flatpak_packages : M bool :=
  me <- get_self ;;
  print (lit "Updating Flatpak packages...") ;;
  if dry_run me
  then print (lit "Dry run - would run: flatpak update -y") ;; ret true
  else
    ' (success, _) <- run_command CMD_FLATPAK_UPDATE ;;
    if success
    then print (lit "Flatpak packages updated successfully") ;; ret true
    else print (lit "Failed to update Flatpak packages") ;; ret false.

Definition clean_orphaned_packages : M bool :=
  me <- get_self ;;
  if negb (truthy (removable_packages me))
  then print (lit "No packages to clean") ;; ret true
  else
    print (lit "Removing " ++ str_of_nat (List.length (removable_packages me))
               ++ lit " orphaned packages...") ;;
    if dry_run me
    then print (lit "Dry run - would run: sudo apt autoremove -y") ;; ret true
    else
      ' (success, _) <- run_command CMD_REMOVE ;;
      if success
      then print (lit "Orphaned packages removed successfully") ;; ret true
      else print (lit "Failed to remove orphaned packages") ;; ret false.

Definition clean_cache : M bool :=
  me <- get_self ;;
  print (lit "Cleaning package cache...") ;;
  if dry_run me
  then print (lit "Dry run - would run: sudo apt autoclean") ;; ret true
  else
    ' (success, _) <- run_command CMD_AUTOCLEAN ;;
    if success
    then print (lit "Package cache cleaned successfully") ;; ret true
    else print (lit "Failed to clean package cache") ;; ret false.

(** The apply half of [full_update_and_clean], from [success = True] on. *)
Definition apply_phases : M bool :=
  let success := true in
  me <- get_self ;;
  success <- (if truthy (updatable_packages me)
              then ok <- update_apt_packages ;;
                   ret (if negb ok then false else success)
              else ret success) ;;
  _ <- update_flatpak_packages ;;
  ok <- clean_orphaned_packages ;;
  let success := if negb ok then false else success in
  ok <- clean_cache ;;
  let success := if negb ok then false else success in
  (if success
   then print (lit "Update and clean completed successfully!")
   else print (lit "Update completed with some errors")) ;;
  ret success.

Definition full_update_and_clean : M bool :=
  print (lit "Starting full system update and clean...") ;;
  ok <- check_apt_updates ;;
  if negb ok then ret false else
  ok <- check_flatpak_updates ;;
  if negb ok then ret false else
  ok <- check_autoremove ;;
  if negb ok then ret false else
  print (repeat_char 61%N 50) ;;
  apply_phases.

(** The command line, after [argparse]. *)
Record Args : Type :=
  { arg_dry_run : bool; arg_verbose : bool; arg_check_only : bool }.

Definition start (args : Args) : State :=
  {| self := init (arg_dry_run args) (arg_verbose args);
     calls := []; printed := [] |}.

(** [main]: the exit status of the process and the final state.  Without
    [sys.exit] the interpreter ends with status 0. *)
Definition main (args : Args) : Z * State :=
  if arg_check_only args
  then
    let (_, st) := (check_apt_updates ;; check_flatpak_updates ;;
                    check_autoremove) (start args) in
    (0%Z, st)
  else
    let (success, st) := full_update_and_clean (start args) in
    ((if success then 0 else 1)%Z, st).

End Methods.

End Updater.

Import Py Updater.

(** ** Vocabulary of the statements *)

(** The pair [run_command] makes of an outcome. *)
Definition succeeded (o : Outcome) : bool :=
  match o with
  | Completed returncode _ _ => Z.eqb returncode 0
  | Raised _ => false
  end.

Definition text_of (o : Outcome) : str :=
  match o with
  | Completed _ stdout _ => stdout
  | Raised e => e
  end.

(** What [run_command] prints. *)
Definition run_log (verbose : bool) (cmd : command) (o : Outcome) : list str :=
  (if verbose then [lit "Running: " ++ join (lit " ") cmd] else [])
  ++ match o with
     | Completed returncode _ stderr =>
         if negb (Z.eqb returncode 0) && verbose
         then [lit "Command failed: " ++ stderr] else []
     | Raised e =>
         if verbose then [lit "Error running command: " ++ e] else []
     end.

(** The line a dry run prints in place of running [cmd]. *)
Definition dry_run_line (cmd : command) : str :=
  lit "Dry run - would run: " ++ join (lit " ") cmd.

(** The commands of the check phases. *)
Definition CHECK_COMMANDS : list command :=
  [CMD_REFRESH; CMD_LIST; CMD_WHICH_FLATPAK; CMD_FLATPAK_LIST; CMD_SIMULATE_REMOVE].

(** A check phase runs check commands only and leaves the flags alone. *)
Record check_frame (st : State) (r : bool * State) : Prop :=
  { cf_dry_run : dry_run (self (snd r)) = dry_run (self st);
    cf_verbose : verbose (self (snd r)) = verbose (self st);
    cf_calls : exists l, calls (snd r) = calls st ++ l /\ incl l CHECK_COMMANDS }.

(** What an apply phase guarded by [guard] and running [cmd] does. *)
Record apply_spec (world : World) (guard : bool) (cmd : command) (st : State)
       (r : bool * State) : Prop :=
  { as_self : self (snd r) = self st;
    as_calls : calls (snd r) =
               calls st ++ (if guard && negb (dry_run (self st)) then [cmd] else []);
    as_result : fst r =
                if guard && negb (dry_run (self st))
                then succeeded (world (calls st) cmd) else true;
    as_log : guard = true -> dry_run (self st) = true ->
             In (dry_run_line cmd) (printed (snd r)) }.

(** Two lines [full_update_and_clean] prints. *)
Definition STARTING : str := lit "Starting full system update and clean...".
Definition RULE : str := repeat_char 61%N 50.

(** The state in which the first apply phase starts, when the three check
    phases ran from [st]. *)
Definition after_checks (world : World) (st : State) : State :=
  let c1 := check_apt_updates world (snd (print STARTING st)) in
  let c2 := check_flatpak_updates world (snd c1) in
  let c3 := check_autoremove world (snd c2) in
  snd (print RULE (snd c3)).

(** The results of the three check phases run from [st]. *)
Definition checks_pass (world : World) (st : State) : bool :=
  let c1 := check_apt_updates world (snd (print STARTING st)) in
  let c2 := check_flatpak_updates world (snd c1) in
  let c3 := check_autoremove world (snd c2) in
  fst c1 && fst c2 && fst c3.

(** The apply phases as [full_update_and_clean] calls them. *)
Definition apply_upgrades (world : World) (st : State) : bool * State :=
  if truthy (updatable_packages (self st))
  then update_apt_packages world st else (true, st).
Definition apply_flatpak (world : World) (st : State) : bool * State :=
  update_flatpak_packages world (snd (apply_upgrades world st)).
Definition apply_removal (world : World) (st : State) : bool * State :=
  clean_orphaned_packages world (snd (apply_flatpak world st)).
Definition apply_clean_cache (world : World) (st : State) : bool * State :=
  clean_cache world (snd (apply_removal world st)).

(** Scripted worlds and inputs for the examples. *)
Fixpoint cmd_eqb (a b : command) : bool :=
  match a, b with
  | [], [] => true
  | x :: a', y :: b' => Py.eqb x y && cmd_eqb a' b'
  | _, _ => false
  end.

(** A world that answers each command by a table, whatever ran before. *)
Definition scripted (table : list (command * Outcome)) (default : Outcome) : World :=
  fun _ cmd =>
    match find (fun row => cmd_eqb cmd (fst row)) table with
    | Some row => snd row
    | None => default
    end.

Definition OK (stdout : string) : Outcome := Completed 0 (lit stdout) [].
Definition EXIT1 : Outcome := Completed 1 [] (lit "E: failed").
Definition NOT_FOUND : Outcome :=
  Raised (lit "[Errno 2] No such file or directory: 'flatpak'").

Definition full_run : Args :=
  {| arg_dry_run := false; arg_verbose := false; arg_check_only := false |}.
Definition check_only_args : Args :=
  {| arg_dry_run := false; arg_verbose := false; arg_check_only := true |}.

(** An upgrade listing with two matching lines and a malformed one. *)
Definition LISTING : string :=
  "Listing...
foo/stable 1.0 2.0 amd64
bad line
bar/stable 3 4
".

(** A removal report with three names on two indented lines. *)
Definition REPORT : string :=
  "Reading package lists...
The following packages will be REMOVED:
   libfoo libbar
   libbaz
0 upgraded, 0 newly installed, 3 to remove and 0 not upgraded.
".

(** Everything works and there is something to upgrade and to remove. *)
Definition busy_world : World :=
  scripted [(CMD_LIST, OK LISTING); (CMD_SIMULATE_REMOVE, OK REPORT)] (OK "").

(** The package lists cannot be refreshed. *)
Definition offline_world : World :=
  scripted [(CMD_REFRESH, EXIT1)] (OK "").

(** No flatpak on the machine: the probe exits 1, the tool cannot be run. *)
Definition no_flatpak_world : World :=
  scripted [(CMD_WHICH_FLATPAK, EXIT1); (CMD_FLATPAK_LIST, NOT_FOUND);
            (CMD_FLATPAK_UPDATE, NOT_FOUND);
            (CMD_LIST, OK LISTING); (CMD_SIMULATE_REMOVE, OK REPORT)] (OK "").

(** Flatpak is there, and its update fails. *)
Definition flatpak_update_fails_world : World :=
  scripted [(CMD_FLATPAK_UPDATE, EXIT1)] (OK "").

(** The three check phases in a row, as both callers run them. *)
Definition check1 (world : World) (st : State) := check_apt_updates world st.
Definition check2 (world : World) (st : State) :=
  check_flatpak_updates world (snd (check1 world st)).
Definition check3 (world : World) (st : State) :=
  check_autoremove world (snd (check2 world st)).




(** What [check_autoremove] prints about the names it found. *)
Definition found_lines (packages : list str) : list str :=
  if truthy packages
  then (lit "Found " ++ str_of_nat (List.length packages)
            ++ lit " packages that can be removed:")
       :: map (fun pkg => lit "   " ++ pkg) packages
  else [lit "No orphaned packages found"].

(** A removal report without the header. *)
Definition NOTHING_TO_REMOVE : string :=
  "Reading package lists...
Building dependency tree...
0 upgraded, 0 newly installed, 0 to remove and 0 not upgraded.
".

(** A token: a non-empty run of non-space characters. *)
Definition is_token (t : str) : bool :=
  truthy t && forallb (fun c => negb (isspace c)) t.

(** What may follow a token: nothing, or text that starts with white space. *)
Definition spaced (r : str) : bool :=
  match r with [] => true | c :: _ => isspace c end.

(** An indented line of the package list: three spaces, possibly more white
    space, a first name, and whatever follows it. *)
Record ListedLine : Type :=
  { ll_indent : str; ll_first : str; ll_more : str }.

Definition listed_line (l : ListedLine) : str :=
  repeat_char SP 3 ++ ll_indent l ++ ll_first l ++ ll_more l.

Definition listed_ok (l : ListedLine) : bool :=
  forallb isspace (ll_indent l) && is_token (ll_first l) && spaced (ll_more l)
  && negb (contains REMOVED_HEADER (listed_line l)).

(** What follows the package list: nothing, or a line that is not blank,
    not indented by three spaces and not the header again. *)
Definition terminated (post : list str) : bool :=
  match post with
  | [] => true
  | line :: _ =>
      negb (contains REMOVED_HEADER line) && truthy (strip line)
      && negb (startswith (repeat_char SP 3) line)
  end.

(** Each name once, in the order of first appearance. *)
Definition first_seen (names : list str) : list str :=
  fold_left (fun seen n => if mem n seen then seen else seen ++ [n]) names [].




Definition LISTING_INTRO : str := lit "Listing...".




(** A line skipped by the guard or by the pattern leaves the list as it
    is. *)
Definition skipped (line : str) : bool :=
  negb (contains (lit "/") line)
  || startswith LISTING_INTRO line
  || match Re.re_match APT_LINE line with None => true | Some _ => false end.



(** ** Vocabulary of the further properties *)

(** The object after [self.updatable_packages = l], and after
    [self.removable_packages = l]. *)
Definition with_updatable (l : list UpgradeCandidate) (me : PackageUpdater)
  : PackageUpdater :=
  {| dry_run := dry_run me; verbose := verbose me;
     updatable_packages := l; removable_packages := removable_packages me |}.

Definition with_removable (l : list str) (me : PackageUpdater) : PackageUpdater :=
  {| dry_run := dry_run me; verbose := verbose me;
     updatable_packages := updatable_packages me; removable_packages := l |}.

(** The same state with the dry-run flag set to [d]. *)
Definition set_dry_run (d : bool) (st : State) : State :=
  {| self := {| dry_run := d;
                verbose := verbose (self st);
                updatable_packages := updatable_packages (self st);
                removable_packages := removable_packages (self st) |};
     calls := calls st; printed := printed st |}.

(** What a run does, apart from what it prints: the dry-run flag, the two
    candidate lists and the commands run. *)
Definition observable (st : State)
  : bool * list UpgradeCandidate * list str * list command :=
  (dry_run (self st), updatable_packages (self st),
   removable_packages (self st), calls st).

(** The two summary lines of [full_update_and_clean]. *)
Definition MSG_OK : str := lit "Update and clean completed successfully!".
Definition MSG_ERRORS : str := lit "Update completed with some errors".

(** The removal simulation fails, everything else works. *)
Definition no_simulation_world : World :=
  scripted [(CMD_SIMULATE_REMOVE, EXIT1); (CMD_LIST, OK LISTING)] (OK "").

(** There is something to upgrade and to remove, and the upgrade fails. *)
Definition upgrade_fails_world : World :=
  scripted [(CMD_LIST, OK LISTING); (CMD_SIMULATE_REMOVE, OK REPORT);
            (CMD_UPGRADE, EXIT1)] (OK "").

(** The commands the APT check and the Flatpak check run when the three
    check phases run in a row from [st]. *)
Definition refresh_log (world : World) (st : State) : list command :=
  CMD_REFRESH
    :: (if succeeded (world (calls st) CMD_REFRESH) then [CMD_LIST] else []).

Definition probe_log (world : World) (st : State) : list command :=
  CMD_WHICH_FLATPAK
    :: (if succeeded (world (calls st ++ refresh_log world st) CMD_WHICH_FLATPAK)
        then [CMD_FLATPAK_LIST] else []).

(** The commands of the apply phases of a run that is not dry, from [st]. *)
Definition apply_log (st : State) : list command :=
  (if truthy (updatable_packages (self st)) then [CMD_UPGRADE] else [])
  ++ [CMD_FLATPAK_UPDATE]
  ++ (if truthy (removable_packages (self st)) then [CMD_REMOVE] else [])
  ++ [CMD_AUTOCLEAN].

(** A computation whose result and observable effects do not depend on
    what was printed before nor on the verbosity flag. *)
Definition respects_observable {A} (m : M A) : Prop :=
  forall st1 st2 : State,
    observable st1 = observable st2 ->
    fst (m st1) = fst (m st2)
    /\ observable (snd (m st1)) = observable (snd (m st2)).

(** The arguments of [main]. *)
Definition args_of (dry verb check : bool) : Args :=
  {| arg_dry_run := dry; arg_verbose := verb; arg_check_only := check |}.

(** A candidate as the upgrade-listing parser can produce it: a name that is
    not empty and has no [/], and two versions that are words. *)
Definition candidate_ok (c : UpgradeCandidate) : bool :=
  truthy (name c) && forallb Re.not_slash (name c)
  && is_token (current c) && is_token (available c).

(** The number of occurrences of a character in a string. *)
Definition count_char (c : char) (s : str) : nat :=
  List.length (filter (N.eqb c) s).

(** A line of the Flatpak listing with at least three columns. *)
Definition flatpak_row (line : str) : bool := 2 <=? count_char TAB line.

Definition no_tab (s : str) : bool := forallb (fun c => negb (N.eqb c TAB)) s.

Definition flatpak_ok (e : FlatpakUpdate) : bool :=
  no_tab (fp_name e) && no_tab (fp_arch e) && no_tab (fp_branch e).

(** ** The command executor *)

Section Executor.
Variable world : World.

Lemma run_command_eq (cmd : command) (st : State) :
  run_command world cmd st =
  ((succeeded (world (calls st) cmd), text_of (world (calls st) cmd)),
   {| self := self st;
      calls := calls st ++ [cmd];
      printed := printed st
                 ++ run_log (verbose (self st)) cmd (world (calls st) cmd) |}).
Proof.
  destruct st as [me cs out].
  unfold run_command, bind, get_self, subprocess_run, when, print, ret, run_log.
  cbn [self calls printed].
  destruct (verbose me); cbn [self calls printed];
    destruct (world cs cmd) as [rc so se | e]; cbn [succeeded text_of];
    try destruct (Z.eqb rc 0); cbn [negb andb self calls printed];
    rewrite <- ?app_assoc, ?app_nil_r; reflexivity.
Qed.
End Executor.

(** ** The phases, one by one *)

Lemma for_each_print {A} (f : A -> str) (l : list A) (st : State) :
  for_each l (fun x => print (f x)) st =
  (tt, {| self := self st; calls := calls st;
          printed := printed st ++ map f l |}).
Proof.
  revert st; induction l as [|x l IH]; intros [me cs out]; cbn [for_each map].
  - unfold ret; cbn. now rewrite app_nil_r.
  - unfold bind, print at 1; cbn [self calls printed].
    rewrite IH; cbn [self calls printed]. now rewrite <- app_assoc.
Qed.

Ltac phase_simpl :=
  cbn [bind ret get_self print when fst snd self calls printed
       set_updatable_packages set_removable_packages
       dry_run verbose updatable_packages removable_packages negb andb].

Ltac phase_steps :=
  repeat first [ progress phase_simpl
               | rewrite run_command_eq
               | rewrite for_each_print
               | progress unfold bind at 1 ].

Section Phases.
Variable world : World.

Lemma check_frame_intro st b st' l :
  dry_run (self st') = dry_run (self st) ->
  verbose (self st') = verbose (self st) ->
  calls st' = calls st ++ l -> incl l CHECK_COMMANDS ->
  check_frame st (b, st').
Proof. intros; constructor; cbn [snd]; eauto. Qed.

Ltac incl_check :=
  unfold CHECK_COMMANDS; intros c Hc; cbn [In app] in *; tauto.

Ltac case_cond :=
  match goal with
  | |- context [if negb ?b then _ else _] => destruct b eqn:?
  | |- context [if ?b then _ else _] => destruct b eqn:?
  end.

Ltac close_frame :=
  eapply check_frame_intro; cbn [self calls printed dry_run verbose];
  [reflexivity | reflexivity | rewrite <- ?app_assoc; reflexivity | incl_check].

Lemma check_apt_updates_frame st : check_frame st (check_apt_updates world st).
Proof.
  destruct st as [[d v u r] cs out].
  unfold check_apt_updates. phase_steps.
  case_cond; phase_steps; [|close_frame].
  case_cond; phase_steps; [|close_frame].
  case_cond; phase_steps.
  - close_frame.
  - close_frame.
Qed.

Lemma check_flatpak_updates_frame st :
  check_frame st (check_flatpak_updates world st)
  /\ self (snd (check_flatpak_updates world st)) = self st.
Proof.
  destruct st as [[d v u r] cs out].
  unfold check_flatpak_updates. phase_steps.
  case_cond; phase_steps; [|split; [close_frame | reflexivity]].
  case_cond; phase_steps; [|split; [close_frame | reflexivity]].
  case_cond; phase_steps; (split; [close_frame | reflexivity]).
Qed.

Lemma check_autoremove_frame st :
  check_frame st (check_autoremove world st)
  /\ updatable_packages (self (snd (check_autoremove world st)))
     = updatable_packages (self st).
Proof.
  destruct st as [[d v u r] cs out].
  unfold check_autoremove. phase_steps.
  case_cond; phase_steps; [|split; [close_frame | reflexivity]].
  case_cond; phase_steps; (split; [close_frame | reflexivity]).
Qed.

Ltac close_apply :=
  constructor; cbn [ret fst snd self calls printed dry_run negb andb];
  rewrite ?app_nil_r;
  first [ reflexivity
        | congruence
        | intros H1 H2; congruence
        | intros _ _; apply in_or_app; right; left; vm_compute; reflexivity ].

Lemma update_apt_packages_spec st :
  apply_spec world (truthy (updatable_packages (self st))) CMD_UPGRADE st
             (update_apt_packages world st).
Proof.
  destruct st as [[d v u r] cs out].
  unfold update_apt_packages. phase_steps.
  destruct (truthy u); phase_steps; [|close_apply].
  destruct d; phase_steps; [close_apply|].
  case_cond; phase_steps; close_apply.
Qed.

Lemma update_flatpak_packages_spec st :
  apply_spec world true CMD_FLATPAK_UPDATE st (update_flatpak_packages world st).
Proof.
  destruct st as [[d v u r] cs out].
  unfold update_flatpak_packages. phase_steps.
  destruct d; phase_steps; [close_apply|].
  case_cond; phase_steps; close_apply.
Qed.

Lemma clean_orphaned_packages_spec st :
  apply_spec world (truthy (removable_packages (self st))) CMD_REMOVE st
             (clean_orphaned_packages world st).
Proof.
  destruct st as [[d v u r] cs out].
  unfold clean_orphaned_packages. phase_steps.
  destruct (truthy r); phase_steps; [|close_apply].
  destruct d; phase_steps; [close_apply|].
  case_cond; phase_steps; close_apply.
Qed.

Lemma clean_cache_spec st :
  apply_spec world true CMD_AUTOCLEAN st (clean_cache world st).
Proof.
  destruct st as [[d v u r] cs out].
  unfold clean_cache. phase_steps.
  destruct d; phase_steps; [close_apply|].
  case_cond; phase_steps; close_apply.
Qed.

(** *** The orchestrator, unfolded into its phases *)

Lemma apply_phases_eq st :
  apply_phases world st =
  let ok := fst (apply_upgrades world st) && fst (apply_removal world st)
            && fst (apply_clean_cache world st) in
  (ok, snd (print (if ok then lit "Update and clean completed successfully!"
                   else lit "Update completed with some errors")
                  (snd (apply_clean_cache world st)))).
Proof.
  unfold apply_clean_cache, apply_removal, apply_flatpak, apply_upgrades,
    apply_phases.
  unfold bind at 1. unfold get_self at 1. unfold bind at 1.
  destruct (truthy (updatable_packages (self st))).
  - unfold bind at 1.
    destruct (update_apt_packages world st) as [b1 s1]; cbn [ret fst snd].
    unfold bind at 1.
    destruct (update_flatpak_packages world s1) as [b2 s2]; cbn [fst snd].
    unfold bind at 1.
    destruct (clean_orphaned_packages world s2) as [b3 s3]; cbn [fst snd].
    unfold bind at 1.
    destruct (clean_cache world s3) as [b4 s4]; cbn [fst snd].
    destruct b1, b3, b4; reflexivity.
  - cbn [ret fst snd]. unfold bind at 1.
    destruct (update_flatpak_packages world st) as [b2 s2]; cbn [fst snd].
    unfold bind at 1.
    destruct (clean_orphaned_packages world s2) as [b3 s3]; cbn [fst snd].
    unfold bind at 1.
    destruct (clean_cache world s3) as [b4 s4]; cbn [fst snd].
    destruct b3, b4; reflexivity.
Qed.

Lemma full_update_and_clean_eq st :
  full_update_and_clean world st =
  let c1 := check_apt_updates world (snd (print STARTING st)) in
  let c2 := check_flatpak_updates world (snd c1) in
  let c3 := check_autoremove world (snd c2) in
  if fst c1
  then if fst c2
       then if fst c3
            then apply_phases world (after_checks world st)
            else (false, snd c3)
       else (false, snd c2)
  else (false, snd c1).
Proof.
  unfold full_update_and_clean, after_checks.
  unfold bind at 1. cbn [print snd]. fold STARTING.
  unfold bind at 1.
  destruct (check_apt_updates world _) as [[|] s1]; cbn [fst snd negb ret];
    [|reflexivity].
  unfold bind at 1.
  destruct (check_flatpak_updates world s1) as [[|] s2]; cbn [fst snd negb ret];
    [|reflexivity].
  unfold bind at 1.
  destruct (check_autoremove world s2) as [[|] s3]; cbn [fst snd negb ret];
    [|reflexivity].
  unfold bind at 1. reflexivity.
Qed.
End Phases.

(** ** The claims about the executor and the orchestrator *)

(** C9. For every argument vector [run_command] returns a pair
    (success, text) and never raises: when the child exits, success holds
    exactly for exit status 0 and the text is the captured standard output;
    when the process cannot be launched, success is false and the text is
    the diagnostic message. *)
Theorem run_command_single_failure_shape
        (world : World) (cmd : command) (st : State) :
  exists success text st',
    run_command world cmd st = ((success, text), st')
    /\ match world (calls st) cmd with
       | Completed returncode stdout _ =>
           (success = true <-> returncode = 0%Z) /\ text = stdout
       | Raised e => success = false /\ text = e
       end.
Proof.
  rewrite run_command_eq.
  do 3 eexists; split; [reflexivity|].
  destruct (world (calls st) cmd) as [rc so se | e]; cbn [succeeded text_of].
  - split; [apply Z.eqb_eq | reflexivity].
  - split; reflexivity.
Qed.

Section RefreshFails.
Variable world : World.

Lemma check_apt_updates_refresh_fails st :
  succeeded (world (calls st) CMD_REFRESH) = false ->
  check_apt_updates world st =
  (false,
   {| self := self st;
      calls := calls st ++ [CMD_REFRESH];
      printed := printed st
                 ++ [lit "Checking for APT package updates..."]
                 ++ run_log (verbose (self st)) CMD_REFRESH
                            (world (calls st) CMD_REFRESH)
                 ++ [lit "Failed to update package lists"] |}).
Proof.
  intros H. destruct st as [me cs out]; cbn [self calls printed] in *.
  unfold check_apt_updates. phase_steps. rewrite H. phase_steps.
  now rewrite <- !app_assoc.
Qed.
End RefreshFails.

(** C7. If the package-list refresh fails in a run that is not check-only,
    the run aborts: [apt update] is the only command ever run (so the
    upgrade listing is never asked for and no later phase runs), nothing is
    printed after the failure message, no candidate is recorded, and the
    process exits with status 1. *)
Theorem refresh_failure_aborts (world : World) (args : Args) :
  arg_check_only args = false ->
  succeeded (world [] CMD_REFRESH) = false ->
  fst (main world args) = 1%Z
  /\ calls (snd (main world args)) = [CMD_REFRESH]
  /\ ~ In CMD_LIST (calls (snd (main world args)))
  /\ self (snd (main world args)) = init (arg_dry_run args) (arg_verbose args)
  /\ printed (snd (main world args)) =
     [STARTING; lit "Checking for APT package updates..."]
     ++ run_log (arg_verbose args) CMD_REFRESH (world [] CMD_REFRESH)
     ++ [lit "Failed to update package lists"].
Proof.
  intros Hfull Hfail. unfold main. rewrite Hfull.
  rewrite full_update_and_clean_eq. cbv zeta.
  rewrite check_apt_updates_refresh_fails by exact Hfail.
  cbn [fst snd self calls printed start print init verbose app].
  repeat split; try reflexivity.
  cbn [In]. intros [H | []]. vm_compute in H. discriminate H.
Qed.

Lemma refresh_failure_aborts_witness :
  fst (main offline_world full_run) = 1%Z
  /\ calls (snd (main offline_world full_run)) = [CMD_REFRESH].
Proof.
  destruct (@refresh_failure_aborts offline_world full_run) as (H1 & H2 & _).
  - reflexivity.
  - vm_compute. reflexivity.
  - split; assumption.
Defined.

(** ** Frames: what the check phases leave alone *)

Section Frames.
Variable world : World.

Lemma check_frame_trans st r1 r2 :
  check_frame st r1 -> check_frame (snd r1) r2 -> check_frame st r2.
Proof.
  intros [D1 V1 (l1 & C1 & I1)] [D2 V2 (l2 & C2 & I2)].
  constructor.
  - congruence.
  - congruence.
  - exists (l1 ++ l2). split.
    + rewrite C2, C1. now rewrite app_assoc.
    + intros c Hc. apply in_app_or in Hc. destruct Hc; auto.
Qed.

Lemma check_frame_print st line b : check_frame st (b, snd (print line st)).
Proof.
  constructor; cbn [snd print self calls]; try reflexivity.
  exists []. rewrite app_nil_r. split; [reflexivity | intros c []].
Qed.

Lemma checks_frame st :
  check_frame st (check1 world st) /\ check_frame st (check2 world st)
  /\ check_frame st (check3 world st).
Proof.
  pose proof (check_apt_updates_frame world st) as F1.
  pose proof (proj1 (check_flatpak_updates_frame world (snd (check1 world st)))) as F2.
  pose proof (proj1 (check_autoremove_frame world (snd (check2 world st)))) as F3.
  assert (check_frame st (check2 world st)) as F12
      by (eapply check_frame_trans; [exact F1 | exact F2]).
  split; [exact F1 | split; [exact F12|]].
  eapply check_frame_trans; [exact F12 | exact F3].
Qed.

Lemma after_checks_eq st :
  after_checks world st
  = snd (print RULE (snd (check3 world (snd (print STARTING st))))).
Proof. reflexivity. Qed.

Lemma after_checks_frame st : check_frame st (true, after_checks world st).
Proof.
  rewrite after_checks_eq.
  eapply check_frame_trans with (r1 := (true, snd (print STARTING st)));
    [apply check_frame_print|].
  eapply check_frame_trans with (r1 := check3 world (snd (print STARTING st)));
    [apply checks_frame | apply check_frame_print].
Qed.

(** No apply command is a check command. *)
Lemma apply_commands_not_checks c :
  In c CHECK_COMMANDS ->
  c <> CMD_UPGRADE /\ c <> CMD_FLATPAK_UPDATE /\ c <> CMD_REMOVE
  /\ c <> CMD_AUTOCLEAN.
Proof.
  unfold CHECK_COMMANDS; cbn [In].
  intros [<- | [<- | [<- | [<- | [<- | []]]]]];
    repeat split; intros H; vm_compute in H; discriminate H.
Qed.

(** The apply phases together: what they run and what they leave. *)
Lemma apply_phases_frame st :
  self (snd (apply_phases world st)) = self st
  /\ calls (snd (apply_phases world st)) =
     calls st
     ++ (if truthy (updatable_packages (self st)) && negb (dry_run (self st))
         then [CMD_UPGRADE] else [])
     ++ (if negb (dry_run (self st)) then [CMD_FLATPAK_UPDATE] else [])
     ++ (if truthy (removable_packages (self st)) && negb (dry_run (self st))
         then [CMD_REMOVE] else [])
     ++ (if negb (dry_run (self st)) then [CMD_AUTOCLEAN] else []).
Proof.
  rewrite apply_phases_eq. cbv zeta. cbn [snd print self calls].
  assert (self (snd (apply_upgrades world st)) = self st
          /\ calls (snd (apply_upgrades world st)) =
             calls st ++ (if truthy (updatable_packages (self st))
                             && negb (dry_run (self st))
                          then [CMD_UPGRADE] else [])) as [S1 C1].
  { unfold apply_upgrades.
    destruct (truthy (updatable_packages (self st))) eqn:E.
    - destruct (update_apt_packages_spec world st) as [S C _ _].
      rewrite E in C. auto.
    - cbn [snd andb]. now rewrite app_nil_r. }
  destruct (update_flatpak_packages_spec world (snd (apply_upgrades world st)))
    as [S2 C2 _ _].
  fold (apply_flatpak world st) in S2, C2.
  destruct (clean_orphaned_packages_spec world (snd (apply_flatpak world st)))
    as [S3 C3 _ _].
  fold (apply_removal world st) in S3, C3.
  destruct (clean_cache_spec world (snd (apply_removal world st)))
    as [S4 C4 _ _].
  fold (apply_clean_cache world st) in S4, C4.
  rewrite S3, S2, S1 in S4. rewrite S3, S2, S1 in C4.
  rewrite S2, S1 in C3. rewrite S1 in C2.
  split; [exact S4|].
  rewrite C4, C3, C2, C1. cbn [andb]. now rewrite <- !app_assoc.
Qed.
End Frames.

(** C2, as the code has it.  In check-only mode the exit status is 0.
    Otherwise it is 0 exactly when the three check phases and the phases
    ApplyUpgrades, ApplyRemoval and CleanCache all report success, and 1 when
    one of them fails; what the Flatpak apply phase reports does not enter
    the status. *)
Theorem exit_status_of_main (world : World) (args : Args) :
  fst (main world args) =
  (if arg_check_only args then 0
   else if checks_pass world (start args)
           && fst (apply_upgrades world (after_checks world (start args)))
           && fst (apply_removal world (after_checks world (start args)))
           && fst (apply_clean_cache world (after_checks world (start args)))
        then 0 else 1)%Z.
Proof.
  unfold main. destruct (arg_check_only args).
  - destruct ((check_apt_updates world;; check_flatpak_updates world;;
               check_autoremove world) (start args)); reflexivity.
  - rewrite full_update_and_clean_eq. cbv zeta. unfold checks_pass.
    destruct (fst (check_apt_updates world _)); cbn [andb fst]; [|reflexivity].
    destruct (fst (check_flatpak_updates world _)); cbn [andb fst]; [|reflexivity].
    destruct (fst (check_autoremove world _)); cbn [andb fst]; [|reflexivity].
    rewrite apply_phases_eq. cbv zeta. cbn [fst].
    rewrite <- !andb_assoc. reflexivity.
Qed.

(** C2 as stated fails: a full run in which only the Flatpak apply phase
    fails exits with status 0. *)
Lemma flatpak_apply_failure_exits_0 :
  arg_dry_run full_run = false /\ arg_check_only full_run = false
  /\ fst (apply_flatpak flatpak_update_fails_world
                        (after_checks flatpak_update_fails_world (start full_run)))
     = false
  /\ In (lit "Failed to update Flatpak packages")
        (printed (snd (main flatpak_update_fails_world full_run)))
  /\ fst (main flatpak_update_fails_world full_run) = 0%Z.
Proof. vm_compute. intuition. Qed.

(** C3, as the code has it.  When the probe reports the tool absent, the
    optional check phase reports success and runs no further command.  The
    optional apply phase does not look at the probe: in a dry run it reports
    success and runs nothing, otherwise it runs the Flatpak update command
    and reports how that went; the orchestrator leaves that report out of
    the result of the run. *)
Theorem flatpak_absent_check_skips (world : World) (st : State) :
  succeeded (world (calls st) CMD_WHICH_FLATPAK) = false ->
  (fst (check_flatpak_updates world st) = true
   /\ calls (snd (check_flatpak_updates world st)) = calls st ++ [CMD_WHICH_FLATPAK]
   /\ self (snd (check_flatpak_updates world st)) = self st
   /\ In (lit "Flatpak not installed, skipping")
         (printed (snd (check_flatpak_updates world st))))
  /\ forall st' : State,
      calls (snd (update_flatpak_packages world st')) =
      calls st' ++ (if dry_run (self st') then [] else [CMD_FLATPAK_UPDATE])
      /\ fst (update_flatpak_packages world st') =
         (if dry_run (self st') then true
          else succeeded (world (calls st') CMD_FLATPAK_UPDATE))
      /\ fst (apply_phases world st') =
         fst (apply_upgrades world st') && fst (apply_removal world st')
         && fst (apply_clean_cache world st').
Proof.
  intros Habsent. split.
  - destruct st as [me cs out]; cbn [self calls printed] in *.
    unfold check_flatpak_updates. phase_steps. rewrite Habsent. phase_steps.
    repeat split. apply in_or_app. right. left. reflexivity.
  - intros st'.
    destruct (update_flatpak_packages_spec world st') as [_ C R _].
    rewrite C, R, apply_phases_eq. cbn [andb fst].
    destruct (dry_run (self st')); repeat split; reflexivity.
Qed.

Lemma flatpak_absent_check_skips_witness :
  fst (check_flatpak_updates no_flatpak_world (start full_run)) = true
  /\ calls (snd (check_flatpak_updates no_flatpak_world (start full_run)))
     = [CMD_WHICH_FLATPAK].
Proof.
  destruct (@flatpak_absent_check_skips no_flatpak_world (start full_run))
    as ((H1 & H2 & _) & _).
  - vm_compute. reflexivity.
  - split; assumption.
Defined.

(** C3 as stated fails for the apply phase: with the probe reporting the
    tool absent, a full run still runs the Flatpak update command, and the
    apply phase reports failure. *)
Lemma flatpak_absent_apply_still_runs :
  succeeded (no_flatpak_world [CMD_REFRESH; CMD_LIST] CMD_WHICH_FLATPAK) = false
  /\ calls (snd (main no_flatpak_world full_run)) =
     [CMD_REFRESH; CMD_LIST; CMD_WHICH_FLATPAK; CMD_SIMULATE_REMOVE;
      CMD_UPGRADE; CMD_FLATPAK_UPDATE; CMD_REMOVE; CMD_AUTOCLEAN]
  /\ fst (apply_flatpak no_flatpak_world
                        (after_checks no_flatpak_world (start full_run))) = false
  /\ In (lit "Failed to update Flatpak packages")
        (printed (snd (main no_flatpak_world full_run))).
Proof. vm_compute. intuition. Qed.

(** ** Dry runs *)

Section DryRun.
Variable world : World.


End DryRun.



(** ** Apply commands and candidates *)

Section Candidates.
Variable world : World.

Lemma not_in_checks l c :
  incl l CHECK_COMMANDS -> In c l ->
  c <> CMD_UPGRADE /\ c <> CMD_REMOVE.
Proof.
  intros I H. destruct (apply_commands_not_checks (I c H)) as (A & _ & B & _).
  auto.
Qed.

(** After the apply phases, an upgrade or removal command in the log
    beyond the check commands means a candidate list was not empty. *)
Lemma apply_phases_candidates st l :
  calls st = l -> incl l CHECK_COMMANDS ->
  (In CMD_UPGRADE (calls (snd (apply_phases world st))) ->
   updatable_packages (self (snd (apply_phases world st))) <> [])
  /\ (In CMD_REMOVE (calls (snd (apply_phases world st))) ->
      removable_packages (self (snd (apply_phases world st))) <> []).
Proof.
  intros Hl Hincl.
  destruct (apply_phases_frame world st) as [S C]. rewrite S, C, Hl.
  split; intros H; rewrite !in_app_iff in H.
  - destruct H as [H | [H | [H | [H | H]]]].
    + destruct (@not_in_checks l _ Hincl H) as [A B]; congruence.
    + destruct (updatable_packages (self st)); [destruct H | discriminate].
    + destruct (negb (dry_run (self st))); cbn [In] in H;
        [destruct H as [H | []]; vm_compute in H; discriminate H | destruct H].
    + destruct (truthy (removable_packages (self st)) && negb (dry_run (self st)));
        cbn [In] in H;
        [destruct H as [H | []]; vm_compute in H; discriminate H | destruct H].
    + destruct (negb (dry_run (self st))); cbn [In] in H;
        [destruct H as [H | []]; vm_compute in H; discriminate H | destruct H].
  - destruct H as [H | [H | [H | [H | H]]]].
    + destruct (@not_in_checks l _ Hincl H) as [A B]; congruence.
    + destruct (truthy (updatable_packages (self st)) && negb (dry_run (self st)));
        cbn [In] in H;
        [destruct H as [H | []]; vm_compute in H; discriminate H | destruct H].
    + destruct (negb (dry_run (self st))); cbn [In] in H;
        [destruct H as [H | []]; vm_compute in H; discriminate H | destruct H].
    + destruct (removable_packages (self st)); [destruct H | discriminate].
    + destruct (negb (dry_run (self st))); cbn [In] in H;
        [destruct H as [H | []]; vm_compute in H; discriminate H | destruct H].
Qed.

Lemma only_checks_no_apply st (r : bool * State) c :
  calls st = [] -> check_frame st r -> In c (calls (snd r)) ->
  c <> CMD_UPGRADE /\ c <> CMD_REMOVE.
Proof.
  intros H0 [_ _ (l & C & I)] H. rewrite C, H0 in H. cbn [app] in H.
  exact (@not_in_checks l c I H).
Qed.
End Candidates.

(** C10. Also outside dry-run mode, [update_apt_packages] with no upgrade
    candidate and [clean_orphaned_packages] with no removal candidate report
    success and run no command.  In every run of [main], the upgrade command
    was run only if the check phase recorded an upgrade candidate, and the
    removal command only if it recorded a removal candidate. *)
Theorem apply_only_with_candidates (world : World) :
  (forall st, updatable_packages (self st) = [] ->
              fst (update_apt_packages world st) = true
              /\ calls (snd (update_apt_packages world st)) = calls st)
  /\ (forall st, removable_packages (self st) = [] ->
                 fst (clean_orphaned_packages world st) = true
                 /\ calls (snd (clean_orphaned_packages world st)) = calls st)
  /\ (forall args,
        (In CMD_UPGRADE (calls (snd (main world args))) ->
         updatable_packages (self (snd (main world args))) <> [])
        /\ (In CMD_REMOVE (calls (snd (main world args))) ->
            removable_packages (self (snd (main world args))) <> [])).
Proof.
  split; [|split].
  - intros st H. destruct (update_apt_packages_spec world st) as [_ C R _].
    rewrite H in *. cbn [truthy andb] in *. now rewrite app_nil_r in C.
  - intros st H. destruct (clean_orphaned_packages_spec world st) as [_ C R _].
    rewrite H in *. cbn [truthy andb] in *. now rewrite app_nil_r in C.
  - intros args. unfold main. destruct (arg_check_only args).
    + unfold bind.
      fold (check1 world (start args)).
      destruct (check1 world (start args)) as [b1 s1] eqn:E1.
      assert (s1 = snd (check1 world (start args))) as -> by now rewrite E1.
      fold (check2 world (start args)).
      destruct (check2 world (start args)) as [b2 s2] eqn:E2.
      assert (s2 = snd (check2 world (start args))) as -> by now rewrite E2.
      fold (check3 world (start args)).
      destruct (check3 world (start args)) as [b3 s3] eqn:E3.
      cbn [snd].
      destruct (checks_frame world (start args)) as (_ & _ & F3).
      rewrite E3 in F3.
      split; intros H;
        destruct (@only_checks_no_apply (start args) (b3, s3) _ eq_refl F3 H);
        congruence.
    + rewrite full_update_and_clean_eq. cbv zeta.
      destruct (checks_frame world (snd (print STARTING (start args))))
        as (F1 & F2 & F3).
      unfold check3, check2, check1 in *.
      destruct (fst (check_apt_updates world _)).
      2:{ cbn [snd]. split; intros H;
          destruct (@only_checks_no_apply (snd (print STARTING (start args)))
                                           _ _ eq_refl F1 H); congruence. }
      destruct (fst (check_flatpak_updates world _)).
      2:{ cbn [snd]. split; intros H;
          destruct (@only_checks_no_apply (snd (print STARTING (start args)))
                                           _ _ eq_refl F2 H); congruence. }
      destruct (fst (check_autoremove world _)).
      2:{ cbn [snd]. split; intros H;
          destruct (@only_checks_no_apply (snd (print STARTING (start args)))
                                           _ _ eq_refl F3 H); congruence. }
      destruct (apply_phases world (after_checks world (start args)))
        as [ok st] eqn:E. cbn [snd].
      destruct (after_checks_frame world (start args)) as [_ _ (l & C & I)].
      cbn [snd start calls app] in C.
      pose proof (@apply_phases_candidates world _ l C I) as P.
      rewrite E in P. exact P.
Qed.

Lemma apply_only_with_candidates_witness :
  (fst (update_apt_packages busy_world (start full_run)) = true
   /\ calls (snd (update_apt_packages busy_world (start full_run))) = [])
  /\ updatable_packages (self (snd (main busy_world full_run))) <> [].
Proof.
  destruct (apply_only_with_candidates busy_world) as (A & _ & C).
  split.
  - apply (A (start full_run)). reflexivity.
  - apply (C full_run). vm_compute. intuition.
Defined.

(** ** Facts about the string operations *)

Section StringFacts.

Lemma eqb_eq (a b : str) : Py.eqb a b = true <-> a = b.
Proof.
  revert b; induction a as [|x a IH]; intros [|y b]; cbn [Py.eqb];
    try (split; [discriminate | intros H; discriminate H]);
    try (split; reflexivity).
  rewrite andb_true_iff, N.eqb_eq, IH.
  split; [intros [-> ->]; reflexivity | intros H; injection H; auto].
Qed.

Lemma eqb_refl (a : str) : Py.eqb a a = true.
Proof. now apply eqb_eq. Qed.

Lemma startswith_app (p b : str) : startswith p (p ++ b) = true.
Proof.
  induction p as [|x p IH]; cbn [startswith app]; [reflexivity|].
  now rewrite N.eqb_refl, IH.
Qed.

Lemma startswith_inv (p s : str) :
  startswith p s = true -> exists b, s = p ++ b.
Proof.
  revert s; induction p as [|x p IH]; intros s H.
  - exists s. reflexivity.
  - destruct s as [|y s]; cbn [startswith] in H; [discriminate|].
    apply andb_prop in H. destruct H as [E H]. apply N.eqb_eq in E. subst y.
    destruct (IH s H) as [b ->]. exists b. reflexivity.
Qed.

(** [p in s] holds exactly when [s] has [p] somewhere inside. *)
Lemma contains_intro (p a b : str) : contains p (a ++ p ++ b) = true.
Proof.
  induction a as [|x a IH]; cbn [app].
  - destruct (p ++ b) eqn:E; cbn [contains]; rewrite <- E;
      now rewrite startswith_app.
  - cbn [contains]. rewrite IH. apply orb_true_r.
Qed.

Lemma contains_inv (p s : str) :
  contains p s = true -> exists a b, s = a ++ p ++ b.
Proof.
  induction s as [|x s IH]; cbn [contains]; intros H.
  - rewrite orb_false_r in H. destruct (startswith_inv _ _ H) as [b E].
    exists [], b. exact E.
  - apply orb_prop in H. destruct H as [H | H].
    + destruct (startswith_inv _ _ H) as [b E]. exists [], b. exact E.
    + destruct (IH H) as (a & b & ->). exists (x :: a), b. reflexivity.
Qed.

Lemma contains_infix (p s a b : str) :
  contains p s = true -> contains p (a ++ s ++ b) = true.
Proof.
  intros H. destruct (contains_inv _ _ H) as (a' & b' & ->).
  replace (a ++ (a' ++ p ++ b') ++ b) with ((a ++ a') ++ p ++ (b' ++ b))
    by now rewrite <- !app_assoc.
  apply contains_intro.
Qed.

(** White space at both ends is all that [strip] removes. *)
Lemma lstrip_suffix (s : str) :
  exists a, s = a ++ lstrip s /\ forallb isspace a = true.
Proof.
  induction s as [|c s (a & E & W)]; cbn [lstrip].
  - exists []. split; reflexivity.
  - destruct (isspace c) eqn:C.
    + exists (c :: a). cbn [app forallb]. rewrite C, W. split; [congruence | reflexivity].
    + exists []. split; reflexivity.
Qed.

Lemma rstrip_prefix (s : str) :
  exists b, s = rstrip s ++ b /\ forallb isspace b = true.
Proof.
  induction s as [|c s (b & E & W)]; cbn [rstrip].
  - exists []. split; reflexivity.
  - destruct (rstrip s) as [|y r] eqn:R.
    + destruct (isspace c) eqn:C.
      * exists (c :: b). cbn [app forallb] in *. rewrite C, W. subst s.
        split; reflexivity.
      * exists b. cbn [app] in *. subst s. split; [reflexivity | exact W].
    + exists b. cbn [app] in *. split; [congruence | exact W].
Qed.

Lemma strip_infix (s : str) : exists a b, s = a ++ strip s ++ b.
Proof.
  unfold strip.
  destruct (rstrip_prefix s) as (b & E & _).
  destruct (lstrip_suffix (rstrip s)) as (a & E' & _).
  exists a, b. rewrite app_assoc, <- E'. exact E.
Qed.

Lemma rstrip_app (a b : str) :
  rstrip (a ++ b) = match rstrip b with [] => rstrip a | _ :: _ => a ++ rstrip b end.
Proof.
  induction a as [|c a IH]; cbn [app rstrip].
  - destruct (rstrip b); reflexivity.
  - rewrite IH. destruct (rstrip b) as [|y r]; [reflexivity|].
    destruct a; reflexivity.
Qed.

Lemma rstrip_spaces (b : str) : forallb isspace b = true -> rstrip b = [].
Proof.
  induction b as [|c b IH]; cbn [forallb rstrip]; [reflexivity|].
  intros H. apply andb_prop in H. destruct H as [C H].
  now rewrite (IH H), C.
Qed.

Lemma rstrip_nonspace (t : str) :
  forallb (fun c => negb (isspace c)) t = true -> rstrip t = t.
Proof.
  induction t as [|c t IH]; cbn [forallb rstrip]; [reflexivity|].
  intros H. apply andb_prop in H. destruct H as [C H].
  rewrite (IH H). destruct t; [|reflexivity].
  apply negb_true_iff in C. now rewrite C.
Qed.

(** [split] cuts the text at the separators and loses nothing. *)
Lemma split_nonempty (sep : char) (s : str) : split sep s <> [].
Proof.
  destruct s as [|c s]; cbn [split]; [discriminate|].
  destruct (N.eqb c sep); [discriminate|].
  destruct (split sep s); discriminate.
Qed.

Lemma join_split (sep : char) (s : str) : join [sep] (split sep s) = s.
Proof.
  induction s as [|c s IH]; cbn [split]; [reflexivity|].
  pose proof (split_nonempty sep s) as NE.
  destruct (N.eqb c sep) eqn:E.
  - apply N.eqb_eq in E. subst c.
    destruct (split sep s) as [|w ws]; [contradiction|].
    cbn [join app] in *. now rewrite IH.
  - destruct (split sep s) as [|w ws]; [contradiction|].
    destruct ws; cbn [join app] in *; now rewrite <- IH.
Qed.

Lemma in_join_infix (sep : str) (ls : list str) (line : str) :
  In line ls -> exists a b, join sep ls = a ++ line ++ b.
Proof.
  induction ls as [|x ls IH]; [intros []|].
  intros [-> | H].
  - destruct ls as [|y ls]; cbn [join].
    + exists [], []. now rewrite app_nil_r.
    + exists [], (sep ++ join sep (y :: ls)). reflexivity.
  - destruct (IH H) as (a & b & E).
    destruct ls as [|y ls]; [destruct H|].
    cbn [join] in *. rewrite E. exists (x ++ sep ++ a), b.
    now rewrite <- !app_assoc.
Qed.

(** A line of the stripped text lies inside the text. *)
Lemma line_infix (s line : str) :
  In line (split NL (strip s)) -> exists a b, s = a ++ line ++ b.
Proof.
  intros H. apply (in_join_infix [NL]) in H. rewrite join_split in H.
  destruct H as (a & b & E). destruct (strip_infix s) as (a' & b' & E').
  rewrite E in E'. exists (a' ++ a), (b ++ b').
  rewrite E'. now rewrite <- !app_assoc.
Qed.

Lemma line_contains (p s line : str) :
  In line (split NL (strip s)) -> contains p line = true ->
  contains p s = true.
Proof.
  intros H C. destruct (@line_infix s line H) as (a & b & ->).
  now apply contains_infix.
Qed.
End StringFacts.

(** ** The check phases when their commands succeed *)

Section ChecksSucceed.
Variable world : World.

Lemma check_autoremove_ok st :
  succeeded (world (calls st) CMD_SIMULATE_REMOVE) = true ->
  let packages :=
    parse_removable (text_of (world (calls st) CMD_SIMULATE_REMOVE)) in
  fst (check_autoremove world st) = true
  /\ removable_packages (self (snd (check_autoremove world st))) = packages
  /\ printed (snd (check_autoremove world st)) =
     printed st ++ [lit "Checking for orphaned packages..."]
     ++ run_log (verbose (self st)) CMD_SIMULATE_REMOVE
                (world (calls st) CMD_SIMULATE_REMOVE)
     ++ found_lines packages.
Proof.
  intros H packages. subst packages.
  destruct st as [me cs out]; cbn [self calls printed] in *.
  unfold check_autoremove, found_lines. phase_steps. rewrite H. phase_steps.
  destruct (truthy (parse_removable _)); phase_steps;
    rewrite <- !app_assoc; repeat split; reflexivity.
Qed.

Lemma check_apt_updates_ok st :
  succeeded (world (calls st) CMD_REFRESH) = true ->
  succeeded (world (calls st ++ [CMD_REFRESH]) CMD_LIST) = true ->
  fst (check_apt_updates world st) = true
  /\ updatable_packages (self (snd (check_apt_updates world st))) =
     parse_upgradable (text_of (world (calls st ++ [CMD_REFRESH]) CMD_LIST)).
Proof.
  intros H1 H2.
  destruct st as [me cs out]; cbn [self calls printed] in *.
  unfold check_apt_updates. phase_steps. rewrite H1. phase_steps.
  rewrite H2. phase_steps.
  destruct (truthy (parse_upgradable _)); phase_steps; split; reflexivity.
Qed.
End ChecksSucceed.

(** ** The removal parser *)

Section RemovalParser.

(** Until the header comes, the loop collects nothing. *)
Lemma removable_loop_before_header (lines rest : list str) (packages : list str) :
  Forall (fun line => contains REMOVED_HEADER line = false) lines ->
  removable_loop (lines ++ rest) false packages
  = removable_loop rest false packages.
Proof.
  induction 1 as [|line lines H _ IH]; [reflexivity|].
  cbn [app removable_loop]. rewrite H. cbn [andb]. exact IH.
Qed.

Lemma parse_removable_no_header (output : str) :
  contains REMOVED_HEADER output = false -> parse_removable output = [].
Proof.
  intros H. unfold parse_removable.
  rewrite <- (app_nil_r (split NL (strip output))).
  rewrite removable_loop_before_header; [reflexivity|].
  apply Forall_forall. intros line Hin.
  destruct (contains REMOVED_HEADER line) eqn:C; [|reflexivity].
  rewrite (@line_contains REMOVED_HEADER output line Hin C) in H. discriminate H.
Qed.
End RemovalParser.

(** C6. If the output of the removal simulation has no header line
    "The following packages will be REMOVED:", the removal parser returns
    the empty sequence, and the check phase records no removal candidate,
    says so, and reports success. *)
Theorem no_header_no_removal (world : World) (st : State) :
  succeeded (world (calls st) CMD_SIMULATE_REMOVE) = true ->
  contains REMOVED_HEADER (text_of (world (calls st) CMD_SIMULATE_REMOVE)) = false ->
  parse_removable (text_of (world (calls st) CMD_SIMULATE_REMOVE)) = []
  /\ fst (check_autoremove world st) = true
  /\ removable_packages (self (snd (check_autoremove world st))) = []
  /\ In (lit "No orphaned packages found")
        (printed (snd (check_autoremove world st))).
Proof.
  intros Hok Hno.
  pose proof (parse_removable_no_header _ Hno) as E.
  destruct (@check_autoremove_ok world st Hok) as (R & P & L).
  cbv zeta in *. rewrite E in *.
  repeat split; try assumption.
  rewrite L. rewrite !in_app_iff. right. right. right. left. reflexivity.
Qed.

Lemma no_header_no_removal_witness :
  let w := scripted [(CMD_SIMULATE_REMOVE, OK NOTHING_TO_REMOVE)] (OK "") in
  parse_removable (lit NOTHING_TO_REMOVE) = []
  /\ fst (check_autoremove w (start full_run)) = true.
Proof.
  intros w.
  destruct (@no_header_no_removal w (start full_run)) as (H1 & H2 & _).
  - vm_compute. reflexivity.
  - vm_compute. reflexivity.
  - split; [exact H1 | exact H2].
Defined.

(** ** Tokens and what surrounds them *)

Section Tokens.

Lemma spaced_rstrip (r : str) : spaced r = true -> spaced (rstrip r) = true.
Proof.
  destruct r as [|c r]; cbn [spaced rstrip]; [reflexivity|].
  intros C. destruct (rstrip r); [now rewrite C | exact C].
Qed.

Lemma rstrip_token_app (t r : str) :
  is_token t = true -> rstrip (t ++ r) = t ++ rstrip r.
Proof.
  intros T. apply andb_prop in T. destruct T as [_ T].
  rewrite rstrip_app. destruct (rstrip r); [|reflexivity].
  now rewrite app_nil_r, rstrip_nonspace.
Qed.

Lemma token_app_nonempty (t r : str) : is_token t = true -> truthy (t ++ r) = true.
Proof. destruct t; [discriminate | reflexivity]. Qed.

Lemma lstrip_spaces_app (ws s : str) :
  forallb isspace ws = true -> lstrip (ws ++ s) = lstrip s.
Proof.
  induction ws as [|c ws IH]; cbn [forallb app lstrip]; [reflexivity|].
  intros H. apply andb_prop in H. destruct H as [C H]. now rewrite C, IH.
Qed.

Lemma lstrip_token_app (t r : str) : is_token t = true -> lstrip (t ++ r) = t ++ r.
Proof.
  destruct t as [|c t]; [discriminate|]. cbn [is_token truthy forallb andb app lstrip].
  intros H. apply andb_prop in H. destruct H as [C _].
  apply negb_true_iff in C. now rewrite C.
Qed.

(** The stripped form of a line whose first token is [t]. *)
Lemma strip_around_token (ws t r : str) :
  forallb isspace ws = true -> is_token t = true ->
  strip (ws ++ t ++ r) = t ++ rstrip r.
Proof.
  intros W T. unfold strip.
  assert (rstrip (ws ++ t ++ r) = ws ++ t ++ rstrip r) as ->.
  { rewrite rstrip_app, rstrip_token_app by exact T.
    pose proof (@token_app_nonempty t (rstrip r) T) as NE.
    destruct (t ++ rstrip r); [discriminate NE | reflexivity]. }
  rewrite lstrip_spaces_app by exact W. now apply lstrip_token_app.
Qed.

Lemma split_ws_aux_nonspace (cur t r : str) :
  forallb (fun c => negb (isspace c)) t = true ->
  split_ws_aux cur (t ++ r) = split_ws_aux (rev t ++ cur) r.
Proof.
  revert cur; induction t as [|c t IH]; intros cur; cbn [forallb app rev];
    [reflexivity|].
  intros H. apply andb_prop in H. destruct H as [C H].
  apply negb_true_iff in C. cbn [split_ws_aux]. rewrite C, IH by exact H.
  now rewrite <- app_assoc.
Qed.

(** [(t + r).split()[0]] is [t]. *)
Lemma first_of_split_ws (t r : str) :
  is_token t = true -> spaced r = true ->
  hd_error (split_ws (t ++ r)) = Some t.
Proof.
  intros T S. unfold split_ws.
  pose proof T as T'. apply andb_prop in T'. destruct T' as [NE NS].
  rewrite split_ws_aux_nonspace, app_nil_r by exact NS.
  assert (exists x l, rev t = x :: l) as (x & l & E).
  { destruct t as [|c t]; [discriminate NE|]. cbn [rev].
    destruct (rev t); cbn [app]; eauto. }
  destruct r as [|c r]; cbn [split_ws_aux spaced] in *.
  - rewrite E, <- E, rev_involutive. reflexivity.
  - rewrite S, E, <- E, rev_involutive. reflexivity.
Qed.

Lemma split_ws_aux_started (cur s : str) :
  truthy cur = true ->
  exists t, hd_error (split_ws_aux cur s) = Some t /\ truthy t = true.
Proof.
  assert (forall u : str, truthy u = true -> truthy (rev u) = true) as R.
  { intros [|x u]; [discriminate|]. intros _. cbn [rev].
    destruct (rev u); reflexivity. }
  revert cur; induction s as [|d s IH]; intros cur NE; cbn [split_ws_aux].
  - destruct cur as [|x u] eqn:E; [discriminate NE|]. rewrite <- E in *.
    exists (rev cur). split; [reflexivity | now apply R].
  - destruct (isspace d).
    + destruct cur as [|x u] eqn:E; [discriminate NE|]. rewrite <- E in *.
      exists (rev cur). split; [reflexivity | now apply R].
    + apply IH. reflexivity.
Qed.

(** The index [0] in [check_autoremove] is always in range. *)
Lemma first_token_defined (line : str) :
  truthy (strip line) = true ->
  exists t, hd_error (split_ws (strip line)) = Some t /\ truthy t = true.
Proof.
  intros H. unfold strip in *.
  destruct (lstrip (rstrip line)) as [|c s] eqn:E; [discriminate H|].
  assert (isspace c = false) as C.
  { clear H. revert E. generalize (rstrip line) as u.
    induction u as [|d u IH]; cbn [lstrip]; [discriminate|].
    destruct (isspace d) eqn:D; [exact IH|].
    intros H. injection H as -> _. exact D. }
  unfold split_ws. cbn [split_ws_aux]. rewrite C.
  now apply split_ws_aux_started.
Qed.
End Tokens.

(** ** The lines of a removal report *)

Section RemovalList.

Lemma listed_line_step (l : ListedLine) (rest : list str) (packages : list str) :
  listed_ok l = true ->
  removable_loop (listed_line l :: rest) true packages
  = removable_loop rest true
      (if mem (ll_first l) packages then packages
       else packages ++ [ll_first l]).
Proof.
  intros H. unfold listed_ok in H.
  apply andb_prop in H. destruct H as [H NH].
  apply andb_prop in H. destruct H as [H S].
  apply andb_prop in H. destruct H as [W T].
  apply negb_true_iff in NH.
  cbn [removable_loop]. rewrite NH. cbn [andb].
  assert (strip (listed_line l) = ll_first l ++ rstrip (ll_more l)) as E.
  { unfold listed_line. rewrite app_assoc.
    apply strip_around_token; [|exact T].
    rewrite forallb_app, W. reflexivity. }
  rewrite E, (@token_app_nonempty _ _ T).
  assert (startswith (repeat_char SP 3) (listed_line l) = true) as ->
      by apply startswith_app.
  cbn [negb andb].
  rewrite first_of_split_ws by (try exact T; now apply spaced_rstrip).
  apply andb_prop in T. destruct T as [-> _]. cbn [andb].
  destruct (mem (ll_first l) packages); reflexivity.
Qed.

Lemma removable_loop_list (body : list ListedLine) (post : list str)
      (packages : list str) :
  forallb listed_ok body = true -> terminated post = true ->
  removable_loop (map listed_line body ++ post) true packages
  = fold_left (fun seen n => if mem n seen then seen else seen ++ [n])
              (map ll_first body) packages.
Proof.
  intros B P. revert packages.
  induction body as [|l body IH]; intros packages; cbn [map app fold_left].
  - destruct post as [|line post]; [reflexivity|].
    cbn [terminated] in P.
    apply andb_prop in P. destruct P as [P NI].
    apply andb_prop in P. destruct P as [NH NB].
    apply negb_true_iff in NH.
    cbn [removable_loop]. now rewrite NH, NB, NI.
  - cbn [forallb] in B. apply andb_prop in B. destruct B as [L B].
    rewrite listed_line_step by exact L. now apply IH.
Qed.

Lemma mem_In (x : str) (l : list str) : mem x l = true <-> In x l.
Proof.
  unfold mem. rewrite existsb_exists. split.
  - intros (y & Hy & E). apply eqb_eq in E. now subst y.
  - intros H. exists x. split; [exact H | apply eqb_refl].
Qed.

(** No name is collected twice. *)
Lemma fold_seen_NoDup (names seen : list str) :
  NoDup seen ->
  NoDup (fold_left (fun seen n => if mem n seen then seen else seen ++ [n])
                   names seen).
Proof.
  revert seen; induction names as [|n names IH]; intros seen ND;
    cbn [fold_left]; [exact ND|].
  apply IH. destruct (mem n seen) eqn:E; [exact ND|].
  apply NoDup_app; [exact ND | repeat constructor; intros [] |].
  intros x Hx [<- | []]. apply mem_In in Hx. congruence.
Qed.

Lemma first_seen_NoDup (names : list str) : NoDup (first_seen names).
Proof. apply fold_seen_NoDup. constructor. Qed.
End RemovalList.

(** C1, as the code has it.  For a removal report whose header line is
    followed by indented lines, the removal parser returns the first
    white-space-delimited name of each indented line, each name once, in the
    order of first appearance; further names on a line are not returned.
    The lines are those the parser sees: the lines of the stripped output. *)
Theorem removal_parser_first_names
        (output : str) (pre : list str) (hdr : str)
        (body : list ListedLine) (post : list str) :
  split NL (strip output) = pre ++ hdr :: map listed_line body ++ post ->
  forallb (fun line => negb (contains REMOVED_HEADER line)) pre = true ->
  contains REMOVED_HEADER hdr = true ->
  forallb listed_ok body = true ->
  terminated post = true ->
  parse_removable output = first_seen (map ll_first body)
  /\ NoDup (parse_removable output).
Proof.
  intros Hlines Hpre Hhdr Hbody Hpost.
  enough (parse_removable output = first_seen (map ll_first body)) as E
      by (split; [exact E | rewrite E; apply first_seen_NoDup]).
  unfold parse_removable, first_seen. rewrite Hlines.
  rewrite removable_loop_before_header.
  - cbn [removable_loop]. rewrite Hhdr. now apply removable_loop_list.
  - apply Forall_forall. intros line Hin.
    rewrite forallb_forall in Hpre. now apply negb_true_iff, Hpre.
Qed.

Lemma removal_parser_first_names_witness :
  parse_removable (lit REPORT) = [lit "libfoo"; lit "libbaz"].
Proof.
  apply (@removal_parser_first_names (lit REPORT)
           [lit "Reading package lists..."]
           (lit "The following packages will be REMOVED:")
           [ {| ll_indent := []; ll_first := lit "libfoo"; ll_more := lit " libbar" |};
             {| ll_indent := []; ll_first := lit "libbaz"; ll_more := [] |} ]
           [lit "0 upgraded, 0 newly installed, 3 to remove and 0 not upgraded."]).
  - vm_compute. reflexivity.
  - vm_compute. reflexivity.
  - vm_compute. reflexivity.
  - vm_compute. reflexivity.
  - vm_compute. reflexivity.
Defined.

(** C1 as stated fails: for a report that lists three names on two indented
    lines, the parser returns two names, the check phase reports two
    removable packages, and the second name of the first line is lost. *)
Lemma removal_report_three_names_two_found :
  parse_removable (lit REPORT) = [lit "libfoo"; lit "libbaz"]
  /\ List.length (parse_removable (lit REPORT)) <> 3
  /\ ~ In (lit "libbar") (parse_removable (lit REPORT))
  /\ In (lit "Found 2 packages that can be removed:")
        (printed (snd (main busy_world check_only_args))).
Proof.
  assert (parse_removable (lit REPORT) = [lit "libfoo"; lit "libbaz"]) as E
      by (vm_compute; reflexivity).
  rewrite E. split; [reflexivity | split; [|split]].
  - cbn [List.length]. discriminate.
  - cbn [In]. intros [H | [H | []]]; vm_compute in H; discriminate H.
  - vm_compute. intuition.
Qed.

(** ** The upgrade-listing pattern *)

Section Pattern.
Variable R : Type.



End Pattern.

Section UpgradeLines.






Lemma exec_cat R input r1 r2 s gs (k : str -> list str -> option R) :
  Re.exec input (Re.Cat r1 r2) s gs k
  = Re.exec input r1 s gs (fun s' gs' => Re.exec input r2 s' gs' k).
Proof. reflexivity. Qed.



Lemma exec_nocap R input r s gs (k : str -> list str -> option R) :
  Re.exec input (Re.NoCap r) s gs k = Re.exec input r s gs k.
Proof. destruct r; reflexivity. Qed.


End UpgradeLines.

(** ** The upgrade listing, line by line and as a text *)

Section UpgradeListing.





Lemma upgradable_step_skipped (packages : list UpgradeCandidate) (line : str) :
  skipped line = true -> upgradable_step packages line = packages.
Proof.
  unfold upgradable_step, skipped, LISTING_INTRO. intros H.
  destruct (contains (lit "/") line); cbn [negb orb andb] in *;
    [|now rewrite andb_false_r].
  destruct (startswith (lit "Listing...") line); cbn [negb orb andb] in *;
    [now rewrite andb_false_r|].
  destruct (Re.re_match APT_LINE line); [discriminate H|].
  destruct (truthy line); reflexivity.
Qed.
End UpgradeListing.

(** C5. A line without [/], a line that begins with the listing's
    introduction [Listing...], and a line the pattern does not match produce
    no candidate: the listing parses as if the line were not there.  No
    error arises: whenever the refresh and the listing commands succeed, the
    check phase reports success and records what the parser returned. *)
Theorem skipped_line_is_ignored
        (world : World) (st : State) (before after : list str) (line : str) :
  skipped line = true ->
  upgradable_of_lines (before ++ line :: after)
  = upgradable_of_lines (before ++ after)
  /\ (succeeded (world (calls st) CMD_REFRESH) = true ->
      succeeded (world (calls st ++ [CMD_REFRESH]) CMD_LIST) = true ->
      fst (check_apt_updates world st) = true
      /\ updatable_packages (self (snd (check_apt_updates world st))) =
         parse_upgradable (text_of (world (calls st ++ [CMD_REFRESH]) CMD_LIST))).
Proof.
  intros S. split.
  - unfold upgradable_of_lines. rewrite !fold_left_app. cbn [fold_left].
    now rewrite upgradable_step_skipped.
  - apply check_apt_updates_ok.
Qed.

Lemma skipped_line_is_ignored_witness :
  upgradable_of_lines [lit "foo/stable 1.0 2.0 amd64"; lit "bad line";
                       lit "bar/stable 3 4"]
  = upgradable_of_lines [lit "foo/stable 1.0 2.0 amd64"; lit "bar/stable 3 4"]
  /\ fst (check_apt_updates busy_world (start full_run)) = true.
Proof.
  destruct (@skipped_line_is_ignored busy_world (start full_run)
              [lit "foo/stable 1.0 2.0 amd64"] [lit "bar/stable 3 4"]
              (lit "bad line")) as [H1 H2].
  - vm_compute. reflexivity.
  - split; [exact H1|]. apply H2; vm_compute; reflexivity.
Defined.

(** ** From the text of the listing to its lines *)

Section ListingText.
















End ListingText.



(** ** The check phases, exactly *)

Section CheckPhases.
Variable world : World.

(** What [check_apt_updates] returns, runs and records. *)
Lemma check_apt_updates_exact st :
  let ok1 := succeeded (world (calls st) CMD_REFRESH) in
  let o2 := world (calls st ++ [CMD_REFRESH]) CMD_LIST in
  fst (check_apt_updates world st) = ok1 && succeeded o2
  /\ calls (snd (check_apt_updates world st)) =
     calls st ++ CMD_REFRESH :: (if ok1 then [CMD_LIST] else [])
  /\ self (snd (check_apt_updates world st)) =
     (if ok1 && succeeded o2
      then with_updatable (parse_upgradable (text_of o2)) (self st)
      else self st).
Proof.
  destruct st as [[d v u r] cs out]; cbn [self calls] in *.
  unfold check_apt_updates. phase_steps.
  destruct (succeeded (world cs CMD_REFRESH)); phase_steps;
    [|repeat split; reflexivity].
  destruct (succeeded (world (cs ++ [CMD_REFRESH]) CMD_LIST)); phase_steps.
  - destruct (truthy (parse_upgradable _)); phase_steps;
      rewrite <- ?app_assoc; repeat split; reflexivity.
  - rewrite <- ?app_assoc; repeat split; reflexivity.
Qed.

Lemma check_flatpak_updates_exact st :
  let ok1 := succeeded (world (calls st) CMD_WHICH_FLATPAK) in
  let o2 := world (calls st ++ [CMD_WHICH_FLATPAK]) CMD_FLATPAK_LIST in
  fst (check_flatpak_updates world st) = negb ok1 || succeeded o2
  /\ calls (snd (check_flatpak_updates world st)) =
     calls st ++ CMD_WHICH_FLATPAK :: (if ok1 then [CMD_FLATPAK_LIST] else [])
  /\ self (snd (check_flatpak_updates world st)) = self st.
Proof.
  destruct st as [[d v u r] cs out]; cbn [self calls] in *.
  unfold check_flatpak_updates. phase_steps.
  destruct (succeeded (world cs CMD_WHICH_FLATPAK)); phase_steps;
    [|repeat split; reflexivity].
  destruct (succeeded (world (cs ++ [CMD_WHICH_FLATPAK]) CMD_FLATPAK_LIST));
    phase_steps.
  - destruct (truthy (parse_flatpak _)); phase_steps;
      rewrite <- ?app_assoc; repeat split; reflexivity.
  - rewrite <- ?app_assoc; repeat split; reflexivity.
Qed.

Lemma check_autoremove_exact st :
  let o := world (calls st) CMD_SIMULATE_REMOVE in
  fst (check_autoremove world st) = succeeded o
  /\ calls (snd (check_autoremove world st)) = calls st ++ [CMD_SIMULATE_REMOVE]
  /\ self (snd (check_autoremove world st)) =
     (if succeeded o
      then with_removable (parse_removable (text_of o)) (self st)
      else self st).
Proof.
  destruct st as [[d v u r] cs out]; cbn [self calls] in *.
  unfold check_autoremove. phase_steps.
  destruct (succeeded (world cs CMD_SIMULATE_REMOVE)); phase_steps;
    [|repeat split; reflexivity].
  destruct (truthy (parse_removable _)); phase_steps; repeat split; reflexivity.
Qed.
End CheckPhases.

(** X1. A check phase that fails leaves the fields of the object as they
    were, so candidates of an earlier check stay in place; a check phase that
    succeeds replaces its list by what it parsed (it never appends to the
    old list); the Flatpak check records nothing at all. *)
Theorem check_phases_and_fields (world : World) (st : State) :
  (fst (check_apt_updates world st) = false ->
   self (snd (check_apt_updates world st)) = self st)
  /\ (fst (check_autoremove world st) = false ->
      self (snd (check_autoremove world st)) = self st)
  /\ (fst (check_apt_updates world st) = true ->
      self (snd (check_apt_updates world st)) =
      with_updatable
        (parse_upgradable (text_of (world (calls st ++ [CMD_REFRESH]) CMD_LIST)))
        (self st))
  /\ (fst (check_autoremove world st) = true ->
      self (snd (check_autoremove world st)) =
      with_removable
        (parse_removable (text_of (world (calls st) CMD_SIMULATE_REMOVE)))
        (self st))
  /\ self (snd (check_flatpak_updates world st)) = self st.
Proof.
  destruct (check_apt_updates_exact world st) as (R1 & _ & S1).
  destruct (check_autoremove_exact world st) as (R2 & _ & S2).
  destruct (check_flatpak_updates_exact world st) as (_ & _ & S3).
  cbv zeta in *. rewrite R1, R2, S1, S2.
  repeat apply conj; try exact S3; intros H; rewrite H; reflexivity.
Qed.

Lemma check_phases_and_fields_witness :
  let st := snd (check_apt_updates busy_world (start full_run)) in
  updatable_packages (self st) <> []
  /\ self (snd (check_apt_updates offline_world st)) = self st.
Proof.
  intros st. split.
  - vm_compute. discriminate.
  - destruct (@check_phases_and_fields offline_world st) as (H & _).
    apply H. vm_compute. reflexivity.
Defined.

(** ** The runs of [main], command by command *)

Section Runs.
Variable world : World.

Lemma main_check_only args :
  arg_check_only args = true ->
  main world args = (0%Z, snd (check3 world (start args))).
Proof.
  intros H. unfold main. rewrite H. unfold check3, check2, check1, bind.
  destruct (check_apt_updates world (start args)) as [b1 s1]. cbn [snd].
  destruct (check_flatpak_updates world s1) as [b2 s2]. cbn [snd].
  destruct (check_autoremove world s2) as [b3 s3]. reflexivity.
Qed.

Lemma main_full args :
  arg_check_only args = false ->
  main world args =
  ((if fst (full_update_and_clean world (start args)) then 0 else 1)%Z,
   snd (full_update_and_clean world (start args))).
Proof.
  intros H. unfold main. rewrite H.
  destruct (full_update_and_clean world (start args)); reflexivity.
Qed.

Lemma checks_calls st :
  calls (snd (check1 world st)) = calls st ++ refresh_log world st
  /\ calls (snd (check2 world st)) =
     calls st ++ refresh_log world st ++ probe_log world st
  /\ calls (snd (check3 world st)) =
     calls st ++ refresh_log world st ++ probe_log world st
              ++ [CMD_SIMULATE_REMOVE].
Proof.
  destruct (check_apt_updates_exact world st) as (_ & C1 & _).
  destruct (check_flatpak_updates_exact world (snd (check1 world st)))
    as (_ & C2 & _).
  destruct (check_autoremove_exact world (snd (check2 world st)))
    as (_ & C3 & _).
  cbv zeta in *. fold (check1 world st) in C1.
  fold (check2 world st) in C2. fold (check3 world st) in C3.
  unfold probe_log, refresh_log.
  rewrite C3, C2, C1. rewrite <- !app_assoc. repeat split; reflexivity.
Qed.

(** A full run: how it ends, what it ran and what it left. *)
Lemma full_run_aborted st :
  checks_pass world st = false ->
  fst (full_update_and_clean world st) = false
  /\ exists l, calls (snd (full_update_and_clean world st))
               = calls st ++ refresh_log world (snd (print STARTING st)) ++ l
               /\ incl l CHECK_COMMANDS.
Proof.
  intros H. rewrite full_update_and_clean_eq. cbv zeta.
  unfold checks_pass in H.
  destruct (checks_calls (snd (print STARTING st))) as (C1 & C2 & C3).
  unfold check3, check2, check1 in *. cbn [print snd calls] in C1, C2, C3.
  destruct (fst (check_apt_updates world _)); cbn [andb] in H.
  - destruct (fst (check_flatpak_updates world _)); cbn [andb] in H.
    + rewrite H. cbn [fst snd]. split; [reflexivity|].
      eexists. split; [exact C3|].
      unfold probe_log, CHECK_COMMANDS. intros c Hc.
      destruct (succeeded _) in Hc; cbn [In app] in *; tauto.
    + cbn [fst snd]. split; [reflexivity|].
      eexists. split; [exact C2|].
      unfold probe_log, CHECK_COMMANDS. intros c Hc.
      destruct (succeeded _) in Hc; cbn [In app] in *; tauto.
  - cbn [fst snd]. split; [reflexivity|].
    exists []. split; [now rewrite app_nil_r | intros c []].
Qed.

Lemma full_run_applied st :
  checks_pass world st = true ->
  full_update_and_clean world st = apply_phases world (after_checks world st).
Proof.
  intros H. rewrite full_update_and_clean_eq. cbv zeta.
  unfold checks_pass in H.
  apply andb_prop in H. destruct H as [H H3].
  apply andb_prop in H. destruct H as [H1 H2].
  now rewrite H1, H2, H3.
Qed.

End Runs.


(** X3. A check-only run never stops early: it runs the three check phases
    one after the other, also when an earlier one failed, runs no other
    command, and exits with status 0. *)
Theorem check_only_runs_every_check (world : World) (args : Args) :
  arg_check_only args = true ->
  fst (main world args) = 0%Z
  /\ calls (snd (main world args)) =
     refresh_log world (start args) ++ probe_log world (start args)
                 ++ [CMD_SIMULATE_REMOVE].
Proof.
  intros Hc. rewrite (main_check_only world args Hc). cbn [fst snd].
  split; [reflexivity|].
  destruct (checks_calls world (start args)) as (_ & _ & C). exact C.
Qed.

Lemma check_only_runs_every_check_witness :
  calls (snd (main offline_world check_only_args)) =
  [CMD_REFRESH; CMD_WHICH_FLATPAK; CMD_FLATPAK_LIST; CMD_SIMULATE_REMOVE].
Proof.
  destruct (@check_only_runs_every_check offline_world check_only_args) as [_ H].
  - reflexivity.
  - rewrite H. vm_compute. reflexivity.
Defined.

(** X4. In a run that is not check-only, a failure of any check phase (the
    refresh, the upgrade listing, the Flatpak listing or the removal
    simulation) ends the run: none of the four apply commands is run and the
    exit status is 1. *)
Theorem failed_check_aborts_full_run (world : World) (args : Args) :
  arg_check_only args = false ->
  checks_pass world (start args) = false ->
  fst (main world args) = 1%Z
  /\ incl (calls (snd (main world args))) CHECK_COMMANDS
  /\ ~ In CMD_UPGRADE (calls (snd (main world args)))
  /\ ~ In CMD_FLATPAK_UPDATE (calls (snd (main world args)))
  /\ ~ In CMD_REMOVE (calls (snd (main world args)))
  /\ ~ In CMD_AUTOCLEAN (calls (snd (main world args))).
Proof.
  intros Hc Hp. rewrite (main_full world args Hc). cbn [fst snd].
  destruct (full_run_aborted world (start args) Hp) as (R & l & C & I).
  rewrite R, C. cbn [start calls app].
  assert (incl (refresh_log world (snd (print STARTING (start args))) ++ l)
               CHECK_COMMANDS) as Hincl.
  { intros c Hin. apply in_app_or in Hin. destruct Hin as [Hin | Hin]; [|auto].
    unfold refresh_log, CHECK_COMMANDS in *.
    destruct (succeeded _) in Hin; cbn [In] in *; tauto. }
  split; [reflexivity|]. split; [exact Hincl|].
  repeat split; intros Hin;
    destruct (apply_commands_not_checks (Hincl _ Hin)) as (A & B & C' & D);
    congruence.
Qed.

Lemma failed_check_aborts_full_run_witness :
  fst (main no_simulation_world full_run) = 1%Z
  /\ ~ In CMD_UPGRADE (calls (snd (main no_simulation_world full_run))).
Proof.
  destruct (@failed_check_aborts_full_run no_simulation_world full_run)
    as (H1 & _ & H2 & _).
  - reflexivity.
  - vm_compute. reflexivity.
  - split; assumption.
Defined.

(** X5. Once the check phases have passed, a run that is neither dry nor
    check-only attempts every apply phase, whatever the earlier ones
    returned: the upgrade (when there are upgrade candidates), the Flatpak
    update, the removal (when there are removal candidates) and the cache
    clean-up, in this order.  The apply phases change no field: the
    candidate lists are not emptied after they were applied. *)
Theorem apply_phases_are_best_effort (world : World) (args : Args) :
  arg_check_only args = false ->
  arg_dry_run args = false ->
  checks_pass world (start args) = true ->
  calls (snd (main world args)) =
  calls (after_checks world (start args))
        ++ apply_log (after_checks world (start args))
  /\ self (snd (main world args)) = self (after_checks world (start args)).
Proof.
  intros Hc Hd Hp. rewrite (main_full world args Hc). cbn [snd].
  rewrite (full_run_applied world (start args) Hp).
  destruct (apply_phases_frame world (after_checks world (start args)))
    as [S C].
  destruct (after_checks_frame world (start args)) as [D _ _].
  cbn [snd start self init dry_run] in D. rewrite Hd in D.
  split; [|exact S]. rewrite C, D. unfold apply_log. cbn [negb].
  now rewrite !andb_true_r.
Qed.

Lemma apply_phases_are_best_effort_witness :
  fst (main upgrade_fails_world full_run) = 1%Z
  /\ calls (snd (main upgrade_fails_world full_run)) =
     [CMD_REFRESH; CMD_LIST; CMD_WHICH_FLATPAK; CMD_FLATPAK_LIST;
      CMD_SIMULATE_REMOVE; CMD_UPGRADE; CMD_FLATPAK_UPDATE; CMD_REMOVE;
      CMD_AUTOCLEAN].
Proof.
  split; [vm_compute; reflexivity|].
  destruct (@apply_phases_are_best_effort upgrade_fails_world full_run)
    as [H _].
  - reflexivity.
  - reflexivity.
  - vm_compute. reflexivity.
  - rewrite H. vm_compute. reflexivity.
Defined.

(** X6. In a run that is not check-only and whose check phases pass, the
    last line printed is the summary, and it agrees with the exit status:
    "Update and clean completed successfully!" with status 0, "Update
    completed with some errors" with status 1. *)
Theorem summary_line_matches_exit_status (world : World) (args : Args) :
  arg_check_only args = false ->
  checks_pass world (start args) = true ->
  last (printed (snd (main world args))) [] =
  (if Z.eqb (fst (main world args)) 0 then MSG_OK else MSG_ERRORS).
Proof.
  intros Hc Hp. rewrite (main_full world args Hc). cbn [fst snd].
  rewrite (full_run_applied world (start args) Hp), apply_phases_eq.
  cbv zeta. cbn [fst snd print printed]. rewrite last_last.
  destruct (_ && _); reflexivity.
Qed.

Lemma summary_line_matches_exit_status_witness :
  last (printed (snd (main upgrade_fails_world full_run))) [] = MSG_ERRORS.
Proof.
  rewrite (@summary_line_matches_exit_status upgrade_fails_world full_run).
  - vm_compute. reflexivity.
  - reflexivity.
  - vm_compute. reflexivity.
Defined.

(** ** Verbosity changes the output only *)

Section Verbosity.
Variable world : World.

Lemma observable_inv st1 st2 :
  observable st1 = observable st2 ->
  dry_run (self st1) = dry_run (self st2)
  /\ updatable_packages (self st1) = updatable_packages (self st2)
  /\ removable_packages (self st1) = removable_packages (self st2)
  /\ calls st1 = calls st2.
Proof. unfold observable. intros H. injection H. auto. Qed.

Lemma observable_intro st1 st2 :
  dry_run (self st1) = dry_run (self st2) ->
  updatable_packages (self st1) = updatable_packages (self st2) ->
  removable_packages (self st1) = removable_packages (self st2) ->
  calls st1 = calls st2 ->
  observable st1 = observable st2.
Proof. unfold observable. congruence. Qed.

Lemma check_apt_updates_respects : respects_observable (check_apt_updates world).
Proof.
  intros st1 st2 H. destruct (observable_inv H) as (D & U & R & C).
  destruct (check_apt_updates_exact world st1) as (R1 & C1 & S1).
  destruct (check_apt_updates_exact world st2) as (R2 & C2 & S2).
  cbv zeta in *. rewrite <- C in *. split; [congruence|].
  apply observable_intro; rewrite ?S1, ?S2, ?C1, ?C2; try reflexivity;
    destruct (_ && _); cbn [with_updatable dry_run updatable_packages
                            removable_packages]; assumption || reflexivity.
Qed.

Lemma check_flatpak_updates_respects :
  respects_observable (check_flatpak_updates world).
Proof.
  intros st1 st2 H. destruct (observable_inv H) as (D & U & R & C).
  destruct (check_flatpak_updates_exact world st1) as (R1 & C1 & S1).
  destruct (check_flatpak_updates_exact world st2) as (R2 & C2 & S2).
  cbv zeta in *. rewrite <- C in *. split; [congruence|].
  apply observable_intro; rewrite ?S1, ?S2, ?C1, ?C2; assumption || reflexivity.
Qed.

Lemma check_autoremove_respects : respects_observable (check_autoremove world).
Proof.
  intros st1 st2 H. destruct (observable_inv H) as (D & U & R & C).
  destruct (check_autoremove_exact world st1) as (R1 & C1 & S1).
  destruct (check_autoremove_exact world st2) as (R2 & C2 & S2).
  cbv zeta in *. rewrite <- C in *. split; [congruence|].
  apply observable_intro; rewrite ?S1, ?S2, ?C1, ?C2; try reflexivity;
    destruct (succeeded _); cbn [with_removable dry_run updatable_packages
                                 removable_packages]; assumption || reflexivity.
Qed.

(** An apply phase respects the observable state when its guard does. *)
Lemma apply_spec_respects (guard : PackageUpdater -> bool) (cmd : command)
      (phase : M bool) :
  (forall st1 st2, observable st1 = observable st2 ->
                   guard (self st1) = guard (self st2)) ->
  (forall st, apply_spec world (guard (self st)) cmd st (phase st)) ->
  respects_observable phase.
Proof.
  intros G Sp st1 st2 H. destruct (observable_inv H) as (D & U & R & C).
  destruct (Sp st1) as [S1 C1 R1 _]. destruct (Sp st2) as [S2 C2 R2 _].
  rewrite (G st1 st2 H), D, C in *. split; [congruence|].
  apply observable_intro; rewrite ?S1, ?S2, ?C1, ?C2; assumption || reflexivity.
Qed.

Lemma update_apt_packages_respects :
  respects_observable (update_apt_packages world).
Proof.
  apply (@apply_spec_respects (fun me => truthy (updatable_packages me))
                              CMD_UPGRADE).
  - intros st1 st2 H. destruct (observable_inv H) as (_ & U & _). now rewrite U.
  - apply update_apt_packages_spec.
Qed.

Lemma update_flatpak_packages_respects :
  respects_observable (update_flatpak_packages world).
Proof.
  apply (@apply_spec_respects (fun _ => true) CMD_FLATPAK_UPDATE).
  - reflexivity.
  - apply update_flatpak_packages_spec.
Qed.

Lemma clean_orphaned_packages_respects :
  respects_observable (clean_orphaned_packages world).
Proof.
  apply (@apply_spec_respects (fun me => truthy (removable_packages me))
                              CMD_REMOVE).
  - intros st1 st2 H. destruct (observable_inv H) as (_ & _ & R & _). now rewrite R.
  - apply clean_orphaned_packages_spec.
Qed.

Lemma clean_cache_respects : respects_observable (clean_cache world).
Proof.
  apply (@apply_spec_respects (fun _ => true) CMD_AUTOCLEAN).
  - reflexivity.
  - apply clean_cache_spec.
Qed.

Lemma apply_phases_respects : respects_observable (apply_phases world).
Proof.
  intros st1 st2 H. rewrite !apply_phases_eq. cbv zeta. cbn [fst snd].
  assert (fst (apply_upgrades world st1) = fst (apply_upgrades world st2)
          /\ observable (snd (apply_upgrades world st1))
             = observable (snd (apply_upgrades world st2))) as [R1 O1].
  { unfold apply_upgrades. destruct (observable_inv H) as (_ & U & _).
    rewrite U. destruct (truthy _); [|split; [reflexivity | exact H]].
    now apply update_apt_packages_respects. }
  destruct (update_flatpak_packages_respects O1) as [_ O2].
  fold (apply_flatpak world st1) in O2. fold (apply_flatpak world st2) in O2.
  destruct (clean_orphaned_packages_respects O2) as [R3 O3].
  fold (apply_removal world st1) in R3, O3.
  fold (apply_removal world st2) in R3, O3.
  destruct (clean_cache_respects O3) as [R4 O4].
  fold (apply_clean_cache world st1) in R4, O4.
  fold (apply_clean_cache world st2) in R4, O4.
  rewrite R1, R3, R4. split; [reflexivity | exact O4].
Qed.

Lemma check3_respects st1 st2 :
  observable st1 = observable st2 ->
  fst (check1 world st1) = fst (check1 world st2)
  /\ fst (check2 world st1) = fst (check2 world st2)
  /\ fst (check3 world st1) = fst (check3 world st2)
  /\ observable (snd (check1 world st1)) = observable (snd (check1 world st2))
  /\ observable (snd (check2 world st1)) = observable (snd (check2 world st2))
  /\ observable (snd (check3 world st1)) = observable (snd (check3 world st2)).
Proof.
  intros H.
  destruct (check_apt_updates_respects H) as [R1 O1].
  destruct (check_flatpak_updates_respects O1) as [R2 O2].
  destruct (check_autoremove_respects O2) as [R3 O3].
  unfold check3, check2, check1. auto 10.
Qed.

Lemma full_update_and_clean_respects :
  respects_observable (full_update_and_clean world).
Proof.
  intros st1 st2 H. rewrite !full_update_and_clean_eq. cbv zeta.
  assert (observable (snd (print STARTING st1))
          = observable (snd (print STARTING st2))) as H0 by exact H.
  destruct (check3_respects H0) as (R1 & R2 & R3 & O1 & O2 & O3).
  unfold check3, check2, check1 in *.
  set (c1 := check_apt_updates world (snd (print STARTING st1))) in *.
  set (d1 := check_apt_updates world (snd (print STARTING st2))) in *.
  set (c2 := check_flatpak_updates world (snd c1)) in *.
  set (d2 := check_flatpak_updates world (snd d1)) in *.
  set (c3 := check_autoremove world (snd c2)) in *.
  set (d3 := check_autoremove world (snd d2)) in *.
  rewrite R1, R2, R3.
  destruct (fst d1); cbn [fst snd]; [|split; [reflexivity | exact O1]].
  destruct (fst d2); cbn [fst snd]; [|split; [reflexivity | exact O2]].
  destruct (fst d3); cbn [fst snd]; [|split; [reflexivity | exact O3]].
  apply apply_phases_respects. unfold after_checks. exact O3.
Qed.
End Verbosity.

(** X7. The [--verbose] flag changes what is printed and nothing else: two
    runs of [main] that differ in this flag only end with the same exit
    status, having run the same commands in the same order and recorded the
    same candidates. *)
Theorem verbose_changes_output_only (world : World) (dry check v1 v2 : bool) :
  fst (main world (args_of dry v1 check)) = fst (main world (args_of dry v2 check))
  /\ observable (snd (main world (args_of dry v1 check)))
     = observable (snd (main world (args_of dry v2 check))).
Proof.
  assert (observable (start (args_of dry v1 check))
          = observable (start (args_of dry v2 check))) as H by reflexivity.
  destruct check.
  - rewrite !main_check_only by reflexivity. cbn [fst snd].
    split; [reflexivity|]. now apply check3_respects.
  - rewrite !main_full by reflexivity. cbn [fst snd].
    destruct (full_update_and_clean_respects world H) as [R O].
    rewrite R. split; [reflexivity | exact O].
Qed.

(** ** The check phases do not look at the dry-run flag *)

Section ChecksAndDryRun.
Variable world : World.

Lemma check_apt_updates_dry d st :
  check_apt_updates world (set_dry_run d st) =
  (fst (check_apt_updates world st),
   set_dry_run d (snd (check_apt_updates world st))).
Proof.
  destruct st as [[d0 v u r] cs out]. unfold set_dry_run.
  cbn [self calls printed dry_run verbose updatable_packages removable_packages].
  unfold check_apt_updates. phase_steps.
  destruct (succeeded (world cs CMD_REFRESH)); phase_steps; [|reflexivity].
  destruct (succeeded (world (cs ++ [CMD_REFRESH]) CMD_LIST)); phase_steps;
    [|reflexivity].
  destruct (truthy (parse_upgradable _)); phase_steps; reflexivity.
Qed.

Lemma check_flatpak_updates_dry d st :
  check_flatpak_updates world (set_dry_run d st) =
  (fst (check_flatpak_updates world st),
   set_dry_run d (snd (check_flatpak_updates world st))).
Proof.
  destruct st as [[d0 v u r] cs out]. unfold set_dry_run.
  cbn [self calls printed dry_run verbose updatable_packages removable_packages].
  unfold check_flatpak_updates. phase_steps.
  destruct (succeeded (world cs CMD_WHICH_FLATPAK)); phase_steps; [|reflexivity].
  destruct (succeeded (world (cs ++ [CMD_WHICH_FLATPAK]) CMD_FLATPAK_LIST));
    phase_steps; [|reflexivity].
  destruct (truthy (parse_flatpak _)); phase_steps; reflexivity.
Qed.

Lemma check_autoremove_dry d st :
  check_autoremove world (set_dry_run d st) =
  (fst (check_autoremove world st),
   set_dry_run d (snd (check_autoremove world st))).
Proof.
  destruct st as [[d0 v u r] cs out]. unfold set_dry_run.
  cbn [self calls printed dry_run verbose updatable_packages removable_packages].
  unfold check_autoremove. phase_steps.
  destruct (succeeded (world cs CMD_SIMULATE_REMOVE)); phase_steps; [|reflexivity].
  destruct (truthy (parse_removable _)); phase_steps; reflexivity.
Qed.

Lemma check3_dry d st :
  snd (check3 world (set_dry_run d st)) = set_dry_run d (snd (check3 world st)).
Proof.
  unfold check3, check2, check1.
  rewrite check_apt_updates_dry. cbn [snd].
  rewrite check_flatpak_updates_dry. cbn [snd].
  rewrite check_autoremove_dry. reflexivity.
Qed.
End ChecksAndDryRun.

(** X8. The check phases never read the dry-run flag: with the flag set
    they return the same result, run the same commands (the privileged
    [sudo apt update] included) and print the same lines.  So a check-only
    run ignores [--dry-run] altogether. *)
Theorem check_phases_ignore_dry_run (world : World) (d : bool) (st : State) :
  check_apt_updates world (set_dry_run d st) =
  (fst (check_apt_updates world st),
   set_dry_run d (snd (check_apt_updates world st)))
  /\ check_flatpak_updates world (set_dry_run d st) =
     (fst (check_flatpak_updates world st),
      set_dry_run d (snd (check_flatpak_updates world st)))
  /\ check_autoremove world (set_dry_run d st) =
     (fst (check_autoremove world st),
      set_dry_run d (snd (check_autoremove world st)))
  /\ forall verb : bool,
      fst (main world (args_of true verb true))
      = fst (main world (args_of false verb true))
      /\ calls (snd (main world (args_of true verb true)))
         = calls (snd (main world (args_of false verb true)))
      /\ printed (snd (main world (args_of true verb true)))
         = printed (snd (main world (args_of false verb true))).
Proof.
  split; [apply check_apt_updates_dry|].
  split; [apply check_flatpak_updates_dry|].
  split; [apply check_autoremove_dry|].
  intros verb. rewrite !main_check_only by reflexivity. cbn [fst snd].
  change (start (args_of true verb true))
    with (set_dry_run true (start (args_of false verb true))).
  rewrite check3_dry. repeat split; reflexivity.
Qed.

(** ** What the removal parser returns on any text *)

Section RemovalInvariant.

Lemma forallb_rev_nonspace (t : str) :
  forallb (fun c => negb (isspace c)) t = true ->
  forallb (fun c => negb (isspace c)) (rev t) = true.
Proof.
  rewrite !forallb_forall. intros H c Hc. apply H. now apply in_rev.
Qed.

Lemma rev_token (cur : str) :
  truthy cur = true -> forallb (fun c => negb (isspace c)) cur = true ->
  is_token (rev cur) = true.
Proof.
  intros NE NS. unfold is_token. rewrite (forallb_rev_nonspace _ NS), andb_true_r.
  destruct cur as [|x cur]; [discriminate NE|]. cbn [rev].
  destruct (rev cur); reflexivity.
Qed.

(** Every piece of [s.split()] is a token. *)
Lemma split_ws_aux_tokens (cur s : str) :
  forallb (fun c => negb (isspace c)) cur = true ->
  Forall (fun t => is_token t = true) (split_ws_aux cur s).
Proof.
  revert cur; induction s as [|c s IH]; intros cur NS; cbn [split_ws_aux].
  - destruct cur as [|x u] eqn:E; [constructor|]. rewrite <- E in *.
    constructor; [|constructor]. apply rev_token; [now subst cur | exact NS].
  - destruct (isspace c) eqn:C.
    + destruct cur as [|x u] eqn:E; [now apply IH|]. rewrite <- E in *.
      constructor; [|now apply IH]. apply rev_token; [now subst cur | exact NS].
    + apply IH. cbn [forallb]. now rewrite C, NS.
Qed.

Lemma split_ws_tokens (s : str) :
  Forall (fun t => is_token t = true) (split_ws s).
Proof. now apply split_ws_aux_tokens. Qed.

Lemma first_of_split_ws_token (s t : str) :
  hd_error (split_ws s) = Some t -> is_token t = true.
Proof.
  intros H. pose proof (split_ws_tokens s) as F.
  destruct (split_ws s) as [|x l]; [discriminate H|].
  injection H as ->. now inversion F.
Qed.

(** The loop keeps its list free of repetitions and made of tokens. *)
Lemma removable_loop_invariant (lines : list str) (in_list : bool)
      (packages : list str) :
  NoDup packages -> Forall (fun n => is_token n = true) packages ->
  NoDup (removable_loop lines in_list packages)
  /\ Forall (fun n => is_token n = true) (removable_loop lines in_list packages).
Proof.
  revert in_list packages.
  induction lines as [|line lines IH]; intros in_list packages ND TK;
    cbn [removable_loop]; [split; assumption|].
  destruct (contains REMOVED_HEADER line); [now apply IH|].
  destruct (in_list && truthy (strip line)
            && negb (startswith (repeat_char SP 3) line)); [split; assumption|].
  destruct (in_list && truthy (strip line)); [|now apply IH].
  destruct (hd_error (split_ws (strip line))) as [name|] eqn:E;
    [|split; assumption].
  destruct (truthy name && negb (mem name packages)) eqn:G; [|now apply IH].
  apply andb_prop in G. destruct G as [_ G]. apply negb_true_iff in G.
  apply IH.
  - apply NoDup_app; [exact ND | repeat constructor; intros [] |].
    intros x Hx [<- | []]. apply mem_In in Hx. congruence.
  - apply Forall_app. split; [exact TK|].
    constructor; [|constructor]. exact (first_of_split_ws_token _ E).
Qed.
End RemovalInvariant.

(** X9. Whatever the removal simulation printed, the names the removal
    parser returns are pairwise distinct, and each is a non-empty word
    without white space. *)
Theorem removal_names_distinct_tokens (output : str) :
  NoDup (parse_removable output)
  /\ Forall (fun n => is_token n = true) (parse_removable output).
Proof.
  unfold parse_removable. apply removable_loop_invariant; constructor.
Qed.

(** X10. The index in [line.strip().split()[0]] is always in range and the
    test [if package_name] never fails: a line that is not blank has a
    first word, and this word is not empty. *)
Theorem autoremove_index_in_range (line : str) :
  truthy (strip line) = true ->
  exists package_name,
    hd_error (split_ws (strip line)) = Some package_name
    /\ truthy package_name = true.
Proof. apply first_token_defined. Qed.

Lemma autoremove_index_in_range_witness :
  exists package_name,
    hd_error (split_ws (strip (lit "   libfoo libbar"))) = Some package_name
    /\ truthy package_name = true.
Proof.
  apply (@autoremove_index_in_range (lit "   libfoo libbar")).
  vm_compute. reflexivity.
Defined.

(** ** White space around the text *)

Section Padding.

Lemma strip_padded (a s b : str) :
  forallb isspace a = true -> forallb isspace b = true ->
  strip (a ++ s ++ b) = strip s.
Proof.
  intros A B. unfold strip.
  assert (rstrip (s ++ b) = rstrip s) as E
      by (rewrite rstrip_app, (rstrip_spaces _ B); reflexivity).
  rewrite rstrip_app, E.
  destruct (rstrip s) as [|c r] eqn:R.
  - now rewrite (rstrip_spaces _ A).
  - now apply lstrip_spaces_app.
Qed.
End Padding.

(** X11. White space (blank lines included) before and after the output of
    a command does not change what the three parsers make of it. *)
Theorem parsers_ignore_surrounding_space (before output after : str) :
  forallb isspace before = true ->
  forallb isspace after = true ->
  parse_upgradable (before ++ output ++ after) = parse_upgradable output
  /\ parse_removable (before ++ output ++ after) = parse_removable output
  /\ parse_flatpak (before ++ output ++ after) = parse_flatpak output.
Proof.
  intros B A. unfold parse_upgradable, parse_removable, parse_flatpak.
  rewrite (strip_padded _ _ _ B A). repeat split; reflexivity.
Qed.

Lemma parsers_ignore_surrounding_space_witness :
  parse_removable ([NL; NL] ++ lit REPORT ++ [NL; SP; NL])
  = parse_removable (lit REPORT).
Proof.
  apply (@parsers_ignore_surrounding_space [NL; NL] (lit REPORT) [NL; SP; NL]);
    reflexivity.
Defined.

(** ** What a match of the pattern says about the line *)

Section PatternSound.
Variable R : Type.

Lemma greedy_sound (p : char -> bool) (s : str) (k : str -> option R) (r : R) :
  Re.greedy p s k = Some r ->
  exists u v, s = u ++ v /\ forallb p u = true /\ k v = Some r.
Proof.
  induction s as [|c s IH]; cbn [Re.greedy]; intros H.
  - exists [], []. auto.
  - destruct (p c) eqn:C.
    + destruct (Re.greedy p s k) as [r'|] eqn:G.
      * injection H as ->. destruct (IH eq_refl) as (u & v & -> & U & K).
        exists (c :: u), v. cbn [forallb app]. rewrite C, U. auto.
      * exists [], (c :: s). auto.
    + exists [], (c :: s). auto.
Qed.

Lemma exec_plus_sound (input : str) (p : char -> bool) (s : str)
      (gs : list str) (k : str -> list str -> option R) (r : R) :
  Re.exec input (Re.Plus p) s gs k = Some r ->
  exists t v, s = t ++ v /\ truthy t = true /\ forallb p t = true
              /\ k v gs = Some r.
Proof.
  cbn [Re.exec]. destruct s as [|c s]; [discriminate|].
  destruct (p c) eqn:C; [|discriminate]. intros H.
  apply greedy_sound in H. destruct H as (u & v & -> & U & K).
  exists (c :: u), v. cbn [forallb]. rewrite C, U. auto.
Qed.

Lemma exec_group_plus_sound (input : str) (p : char -> bool) (s : str)
      (gs : list str) (k : str -> list str -> option R) (r : R) :
  Re.exec input (Re.Group (Re.Plus p)) s gs k = Some r ->
  exists t v, s = t ++ v /\ truthy t = true /\ forallb p t = true
              /\ k v (gs ++ [t]) = Some r.
Proof.
  intros H. cbn [Re.exec] in H. fold (Re.exec (R := R)) in H.
  apply (@exec_plus_sound input p s gs
           (fun s' gs' =>
              k s' (gs' ++ [firstn (List.length s - List.length s') s])))
    in H.
  destruct H as (t & v & -> & T & P & K).
  rewrite length_app, Nat.add_sub, firstn_app, Nat.sub_diag, firstn_all in K.
  cbn [firstn] in K. rewrite app_nil_r in K. eauto 6.
Qed.

Lemma exec_bol_sound (input s : str) (gs : list str)
      (k : str -> list str -> option R) (r : R) :
  Re.exec input Re.Bol s gs k = Some r -> k s gs = Some r.
Proof. cbn [Re.exec]. destruct (Nat.eqb _ _); [auto | discriminate]. Qed.

Lemma exec_slash_sound (input s : str) (gs : list str)
      (k : str -> list str -> option R) (r : R) :
  Re.exec input (Re.One Re.slash) s gs k = Some r ->
  exists v, s = SLASH :: v /\ k v gs = Some r.
Proof.
  cbn [Re.exec]. destruct s as [|c s]; [discriminate|].
  destruct (Re.slash c) eqn:C; [|discriminate]. intros H.
  apply N.eqb_eq in C. subst c. eauto.
Qed.
End PatternSound.

Section UpgradeInvariant.

(** A match cuts the line into name, source, the two versions and the gaps
    between them. *)
Lemma apt_line_match_sound (line : str) (m : list str) :
  Re.re_match APT_LINE line = Some m ->
  exists g1 g2 g3 rest,
    m = [g1; g2; g3] /\ line = g1 ++ SLASH :: rest
    /\ truthy g1 = true /\ forallb Re.not_slash g1 = true
    /\ is_token g2 = true /\ is_token g3 = true.
Proof.
  unfold Re.re_match, APT_LINE. cbn [Re.cats]. intros H.
  rewrite exec_cat in H. apply exec_bol_sound in H.
  rewrite exec_cat in H. apply exec_group_plus_sound in H.
  destruct H as (g1 & v1 & L1 & N1 & P1 & H). cbn [app] in H.
  rewrite exec_cat in H. apply exec_slash_sound in H.
  destruct H as (v2 & L2 & H). rewrite L2 in L1. clear L2.
  rewrite exec_cat, exec_nocap in H. apply exec_plus_sound in H.
  destruct H as (src & v3 & _ & _ & _ & H).
  rewrite exec_cat in H. apply exec_plus_sound in H.
  destruct H as (w1 & v4 & _ & _ & _ & H).
  rewrite exec_cat in H. apply exec_group_plus_sound in H.
  destruct H as (g2 & v5 & _ & N2 & P2 & H).
  rewrite exec_cat in H. apply exec_plus_sound in H.
  destruct H as (w2 & v6 & _ & _ & _ & H).
  rewrite exec_cat in H. apply exec_group_plus_sound in H.
  destruct H as (g3 & v7 & _ & N3 & P3 & H).
  rewrite exec_cat in H. cbn [Re.exec] in H. apply greedy_sound in H.
  destruct H as (u & v & _ & _ & H).
  destruct (Re.at_eol v); [|discriminate H]. injection H as <-.
  exists g1, g2, g3, v2. unfold is_token, Re.nonspace in *.
  rewrite N1, P1, N2, P2, N3, P3. repeat split; try reflexivity. exact L1.
Qed.

Lemma upgradable_step_invariant (packages : list UpgradeCandidate) (line : str) :
  Forall (fun c => candidate_ok c = true) packages ->
  Forall (fun c => candidate_ok c = true) (upgradable_step packages line)
  /\ List.length (upgradable_step packages line) <= S (List.length packages).
Proof.
  intros F. unfold upgradable_step.
  destruct (_ && _); [|split; [exact F | lia]].
  destruct (Re.re_match APT_LINE line) as [m|] eqn:E; [|split; [exact F | lia]].
  destruct (apt_line_match_sound line E)
    as (g1 & g2 & g3 & rest & -> & _ & N1 & P1 & T2 & T3).
  split.
  - apply Forall_app. split; [exact F|]. constructor; [|constructor].
    unfold candidate_ok, Re.group. cbn [name current available nth Nat.sub].
    now rewrite N1, P1, T2, T3.
  - rewrite length_app. cbn [List.length]. lia.
Qed.

Lemma upgradable_lines_invariant (lines : list str)
      (packages : list UpgradeCandidate) :
  Forall (fun c => candidate_ok c = true) packages ->
  Forall (fun c => candidate_ok c = true) (fold_left upgradable_step lines packages)
  /\ List.length (fold_left upgradable_step lines packages)
     <= List.length packages + List.length lines.
Proof.
  revert packages; induction lines as [|line lines IH]; intros packages F;
    cbn [fold_left List.length].
  - split; [exact F | lia].
  - destruct (upgradable_step_invariant line F) as [F' L'].
    destruct (IH _ F') as [F'' L'']. split; [exact F'' | lia].
Qed.
End UpgradeInvariant.

Lemma upgrade_candidates_well_shaped_aux (output : str) :
  Forall (fun c => candidate_ok c = true) (parse_upgradable output)
  /\ List.length (parse_upgradable output)
     <= List.length (split NL (strip output)).
Proof.
  unfold parse_upgradable, upgradable_of_lines.
  apply (@upgradable_lines_invariant (split NL (strip output)) []). constructor.
Qed.

(** X12. Whatever the listing command printed, every candidate the
    upgrade-listing parser returns has a name that is not empty and holds no
    [/], and a current and an available version that are non-empty words
    without white space; and there are at most as many candidates as
    lines. *)
Theorem upgrade_candidates_well_shaped (output : str) :
  Forall (fun c => candidate_ok c = true) (parse_upgradable output)
  /\ List.length (parse_upgradable output)
     <= List.length (split NL (strip output)).
Proof. apply upgrade_candidates_well_shaped_aux. Qed.

(** ** The Flatpak listing *)

Section FlatpakListing.

Lemma length_split (sep : char) (s : str) :
  List.length (split sep s) = S (count_char sep s).
Proof.
  unfold count_char. induction s as [|c s IH]; cbn [split filter]; [reflexivity|].
  rewrite (N.eqb_sym sep c).
  destruct (N.eqb c sep); cbn [List.length]; [now rewrite IH|].
  destruct (split sep s) as [|w ws]; cbn [List.length] in *; [discriminate IH|].
  exact IH.
Qed.

Lemma split_pieces (sep : char) (s : str) :
  Forall (fun piece => forallb (fun c => negb (N.eqb c sep)) piece = true)
         (split sep s).
Proof.
  induction s as [|c s IH]; cbn [split]; [repeat constructor|].
  destruct (N.eqb c sep) eqn:C; [constructor; [reflexivity | exact IH]|].
  destruct (split sep s) as [|w ws]; [repeat constructor; cbn; now rewrite C|].
  inversion IH as [|? ? Hw Hws]; subst.
  constructor; [|exact Hws]. cbn [forallb]. now rewrite C, Hw.
Qed.

Lemma flatpak_step_row (updates : list FlatpakUpdate) (line : str) :
  Forall (fun e => flatpak_ok e = true) updates ->
  Forall (fun e => flatpak_ok e = true) (flatpak_step updates line)
  /\ List.length (flatpak_step updates line)
     = List.length updates + (if flatpak_row line then 1 else 0).
Proof.
  intros F. unfold flatpak_step, flatpak_row.
  pose proof (length_split TAB line) as L.
  pose proof (split_pieces TAB line) as P.
  destruct line as [|c line].
  - cbn [truthy]. split; [exact F | cbn; lia].
  - cbn [truthy]. remember (c :: line) as s eqn:Es. clear Es.
    destruct (split TAB s) as [|p0 [|p1 [|p2 ps]]]; cbn [List.length] in L.
    + discriminate L.
    + injection L as L. rewrite <- L. cbn [Nat.leb]. split; [exact F | lia].
    + injection L as L. rewrite <- L. cbn [Nat.leb]. split; [exact F | lia].
    + injection L as L. rewrite <- L. cbn [Nat.leb]. split.
      * apply Forall_app. split; [exact F|]. constructor; [|constructor].
        inversion P as [|? ? H0 P']; subst.
        inversion P' as [|? ? H1 P'']; subst.
        inversion P'' as [|? ? H2 _]; subst.
        unfold flatpak_ok, no_tab. cbn [fp_name fp_arch fp_branch].
        now rewrite H0, H1, H2.
      * rewrite length_app. reflexivity.
Qed.

Lemma flatpak_lines_rows (lines : list str) (updates : list FlatpakUpdate) :
  Forall (fun e => flatpak_ok e = true) updates ->
  Forall (fun e => flatpak_ok e = true) (fold_left flatpak_step lines updates)
  /\ List.length (fold_left flatpak_step lines updates)
     = List.length updates + List.length (filter flatpak_row lines).
Proof.
  revert updates; induction lines as [|line lines IH]; intros updates F;
    cbn [fold_left filter].
  - split; [exact F | cbn; lia].
  - destruct (flatpak_step_row line F) as [F' L'].
    destruct (IH _ F') as [F'' L'']. split; [exact F''|].
    rewrite L'', L'. destruct (flatpak_row line); cbn [List.length]; lia.
Qed.
End FlatpakListing.

(** X13. The Flatpak listing parser yields one update for each line of the
    stripped output that has at least two tab characters (three columns),
    and none for any other line; the three recorded columns hold no tab. *)
Theorem flatpak_updates_are_rows (output : str) :
  List.length (parse_flatpak output)
  = List.length (filter flatpak_row (split NL (strip output)))
  /\ Forall (fun e => flatpak_ok e = true) (parse_flatpak output).
Proof.
  unfold parse_flatpak.
  destruct (@flatpak_lines_rows (split NL (strip output)) []) as [F L];
    [constructor|].
  split; [exact L | exact F].
Qed.

(** ** Line by line *)

Section Linewise.

Lemma upgradable_step_appends (packages : list UpgradeCandidate) (line : str) :
  upgradable_step packages line = packages ++ upgradable_step [] line.
Proof.
  unfold upgradable_step. destruct (_ && _); [|now rewrite app_nil_r].
  destruct (Re.re_match APT_LINE line); [reflexivity | now rewrite app_nil_r].
Qed.

Lemma upgradable_fold_appends (lines : list str)
      (packages : list UpgradeCandidate) :
  fold_left upgradable_step lines packages
  = packages ++ fold_left upgradable_step lines [].
Proof.
  revert packages; induction lines as [|line lines IH]; intros packages;
    cbn [fold_left]; [now rewrite app_nil_r|].
  rewrite IH, (IH (upgradable_step [] line)), upgradable_step_appends.
  now rewrite app_assoc.
Qed.

Lemma flatpak_step_appends (updates : list FlatpakUpdate) (line : str) :
  flatpak_step updates line = updates ++ flatpak_step [] line.
Proof.
  unfold flatpak_step. destruct (truthy line); [|now rewrite app_nil_r].
  destruct (split TAB line) as [|p0 [|p1 [|p2 ps]]];
    reflexivity || now rewrite app_nil_r.
Qed.

Lemma flatpak_fold_appends (lines : list str) (updates : list FlatpakUpdate) :
  fold_left flatpak_step lines updates
  = updates ++ fold_left flatpak_step lines [].
Proof.
  revert updates; induction lines as [|line lines IH]; intros updates;
    cbn [fold_left]; [now rewrite app_nil_r|].
  rewrite IH, (IH (flatpak_step [] line)), flatpak_step_appends.
  now rewrite app_assoc.
Qed.

(** A candidate comes from a line, and its name is that line up to its
    first [/]. *)
Lemma upgradable_step_origin (line : str) (c : UpgradeCandidate) :
  In c (upgradable_step [] line) ->
  exists rest, line = name c ++ SLASH :: rest.
Proof.
  unfold upgradable_step. destruct (_ && _); [|intros []].
  destruct (Re.re_match APT_LINE line) as [m|] eqn:E; [|intros []].
  destruct (apt_line_match_sound line E)
    as (g1 & g2 & g3 & rest & -> & L & _).
  cbn [app In]. intros [<- | []]. exists rest. exact L.
Qed.

Lemma upgradable_lines_origin (lines : list str) (c : UpgradeCandidate) :
  In c (fold_left upgradable_step lines []) ->
  exists line rest, In line lines /\ line = name c ++ SLASH :: rest.
Proof.
  induction lines as [|line lines IH]; cbn [fold_left]; [intros []|].
  rewrite upgradable_fold_appends. intros H. apply in_app_or in H.
  destruct H as [H | H].
  - destruct (upgradable_step_origin line c H) as [rest E].
    exists line, rest. split; [now left | exact E].
  - destruct (IH H) as (l & rest & Hin & E).
    exists l, rest. split; [now right | exact E].
Qed.
End Linewise.

(** X14. The two listing parsers work line by line: the candidates of a
    sequence of lines are those of its first part followed by those of the
    rest, so the order of the result is the order of the lines. *)
Theorem listing_parsers_are_linewise (lines1 lines2 : list str) :
  upgradable_of_lines (lines1 ++ lines2)
  = upgradable_of_lines lines1 ++ upgradable_of_lines lines2
  /\ fold_left flatpak_step (lines1 ++ lines2) []
     = fold_left flatpak_step lines1 [] ++ fold_left flatpak_step lines2 [].
Proof.
  unfold upgradable_of_lines. rewrite !fold_left_app. split.
  - apply upgradable_fold_appends.
  - apply flatpak_fold_appends.
Qed.

(** X15. Whatever the listing command printed, the name of every candidate
    the upgrade-listing parser returns is the beginning of a line of the
    stripped output, up to the first [/] of that line. *)
Theorem upgrade_names_come_from_lines (output : str) (c : UpgradeCandidate) :
  In c (parse_upgradable output) ->
  exists line rest,
    In line (split NL (strip output))
    /\ line = name c ++ SLASH :: rest
    /\ forallb Re.not_slash (name c) = true.
Proof.
  intros H.
  destruct (upgradable_lines_origin _ c H) as (line & rest & Hin & E).
  exists line, rest. split; [exact Hin | split; [exact E|]].
  destruct (upgrade_candidates_well_shaped_aux output) as [F _].
  rewrite Forall_forall in F. specialize (F c H).
  unfold candidate_ok in F. rewrite !andb_true_iff in F. tauto.
Qed.

Lemma upgrade_names_come_from_lines_witness :
  exists line rest,
    In line (split NL (strip (lit LISTING)))
    /\ line = lit "bar" ++ SLASH :: rest.
Proof.
  destruct (@upgrade_names_come_from_lines (lit LISTING)
              {| name := lit "bar"; current := lit "3"; available := lit "4" |})
    as (line & rest & H1 & H2 & _).
  - vm_compute. intuition.
  - exists line, rest. split; assumption.
Defined.
